(** * TiRest (tikv-proxy): storage facade and replication connector

    A shallow embedding of [store/store.go] (package [store]: the driver
    registry and the [Store] facade) and of the kafka connector (package
    [kafka]: the durable-queue record format, [runQueue], [runProducer],
    [Send], [Close] and the retry backoff closure of [Driver.Open]).

    Conventions.
    - A Go byte slice is a [list byte]; its capacity equals its length.
    - A Go [string] is a [string]; [utils.S2B] reinterprets it as bytes.
    - An [error] is an [option Err]; [None] is Go's [nil].
    - [int] and [time.Duration] are 64-bit two's complement integers, a
      [uint32] is a [Z] reduced modulo [2^32].
    - An interface value is [None] (nil) or [Some] state of the object
      behind it; a method call threads that state.
    - A call either returns, panics or blocks: [Outcome]. *)

From Stdlib Require Import ZArith List Lia Bool.
From Stdlib Require Import Strings.Byte Strings.Ascii Strings.String.
From stdpp Require Import gmap strings.
From coqutil Require Import Z.bitblast.

Import ListNotations.

Definition bytes : Type := list byte.

(** ** Machine integers *)

Definition uint32 (z : Z) : Z := (z mod 2 ^ 32)%Z.

Definition int64 (z : Z) : Z := ((z + 2 ^ 63) mod 2 ^ 64 - 2 ^ 63)%Z.

(** [byte(x)]: conversion of an unsigned integer to [uint8]. *)
Definition byte_of_Z (z : Z) : byte :=
  match Byte.of_N (Z.to_N (Z.land z 255)) with
  | Some b => b
  | None => Byte.x00
  end.

Definition Z_of_byte (b : byte) : Z := Z.of_N (Byte.to_N b).

(** [len(b)] as an [int]. *)
Definition len {A : Type} (l : list A) : Z := Z.of_nat (length l).

(** [utils.S2B]: the bytes of a string, unchanged. *)
Definition S2B (s : string) : bytes := String.list_byte_of_string s.

(** ** Control outcomes of a call *)

Inductive Outcome (A : Type) : Type :=
| Ret (a : A)
| Panic (msg : string)
| Block.

Arguments Ret {A} a.
Arguments Panic {A} msg.
Arguments Block {A}.

Definition nil_dereference : string :=
  "invalid memory address or nil pointer dereference".

(** ** Package xerror (sentinel errors used by the store) *)

Module xerror.

(** Modelled from the spec: package [xerror] is not among the sources,
    which only name its sentinel errors. [ErrNotRegister] is the
    NotRegistered of the specification, [ErrNotExists] its NotAvailable
    and also the not-found of a backend, [ErrDatabaseNotExists] its
    BackendNotOpen; [Errorf] stands for every other error value. *)
Inductive Err : Type :=
| ErrNotRegister
| ErrNotExists
| ErrDatabaseNotExists
| ErrExists
| Errorf (msg : string).

#[global] Instance Err_eq_dec : EqDecision Err.
Proof. solve_decision. Defined.

(** Go's [error] interface value; [None] is [nil]. *)
Definition error : Type := option Err.

End xerror.

Import xerror.

(** ** Package config (the fields the store and the connector read) *)

Module config.

(** Modelled from the spec: package [config] is not among the sources.
    The records hold the fields that the store and the connector read,
    out of the configuration surface the specification lists; durations
    are in nanoseconds. *)
Record ConnectorConf : Type := mkConnectorConf {
  Name : string;
  EnableProducer : bool;
  Topic : string;
  Retry : Z;
  BackOff : Z;
  MaxBackOff : Z;
  FetchMetadata : bool;
  WriteTimeout : Z
}.

Record StoreConf : Type := mkStoreConf {
  StoreName : string
}.

Record Config : Type := mkConfig {
  Connector : ConnectorConf;
  Store : StoreConf
}.

End config.

(** ** Package store *)

Module store.

Definition CheckFunc : Type := bytes -> bytes -> bytes -> bytes * error.

Record KeyValue : Type := mkKeyValue { kv_Key : string; kv_Value : string }.

Record Value : Type := mkValue { Secondary : bool; Val : bytes }.

Definition NoValue : Value := {| Secondary := false; Val := [] |}.

Record KeyEntry : Type := mkKeyEntry { Key : bytes; Entry : bytes }.

Record Option : Type := mkOption {
  ReplicaRead : bool;
  KeyOnly : bool;
  Reverse : bool;
  OptSecondary : bytes
}.

Definition NoOption : Option :=
  {| ReplicaRead := false; KeyOnly := false; Reverse := false;
     OptSecondary := [] |}.
Definition ReplicaReadOption : Option :=
  {| ReplicaRead := true; KeyOnly := false; Reverse := false;
     OptSecondary := [] |}.
Definition KeyOnlyOption : Option :=
  {| ReplicaRead := false; KeyOnly := true; Reverse := false;
     OptSecondary := [] |}.

Record Log : Type := mkLog { Old : string; New : string }.

(** The [DB] interface: each method maps the backend's state to its
    results and the next state. *)
Class DB (D : Type) : Type := {
  db_Close : D -> error * D;
  db_Put : D -> bytes -> bytes -> error * D;
  db_UnsafeDelete : D -> bytes -> bytes -> error * D;
  db_CheckAndPut : D -> bytes -> bytes -> bytes -> CheckFunc -> error * D;
  db_Get : D -> bytes -> Option -> (Value * error) * D;
  db_BatchDelete : D -> bytes -> bytes -> Z -> (bytes * Z * error) * D;
  db_List : D -> bytes -> bytes -> Z -> Option -> (list KeyValue * error) * D
}.

(** The [Connector] interface. [Send] and [Close] may fail to return. *)
Class Connector (C : Type) : Type := {
  conn_Close : C -> Outcome unit * C;
  conn_Send : C -> KeyEntry -> Outcome error * C
}.

(** *** The driver registry *)

Section Registry.

(** [DBDriver] and [ConnectorDriver]: only [Name()] matters here. *)
Context {DBDriver ConnectorDriver : Type}.
Variable DBDriver_Name : DBDriver -> string.
Variable ConnectorDriver_Name : ConnectorDriver -> string.

(** The package-level variables [dDrivers] and [cDrivers]. *)
Record Registry : Type := mkRegistry {
  dDrivers : gmap string DBDriver;
  cDrivers : gmap string ConnectorDriver
}.

Definition already_registered (name : string) : string :=
  "store " +:+ name +:+ " is already registered".

Definition RegisterDB (driver : DBDriver) (r : Registry)
  : Outcome unit * Registry :=
  let name := DBDriver_Name driver in
  match dDrivers r !! name with
  | Some _ => (Panic (already_registered name), r)
  | None =>
      (Ret tt, {| dDrivers := <[name := driver]> (dDrivers r);
                  cDrivers := cDrivers r |})
  end.

Definition RegisterConnector (driver : ConnectorDriver) (r : Registry)
  : Outcome unit * Registry :=
  let name := ConnectorDriver_Name driver in
  match cDrivers r !! name with
  | Some _ => (Panic (already_registered name), r)
  | None =>
      (Ret tt, {| dDrivers := dDrivers r;
                  cDrivers := <[name := driver]> (cDrivers r) |})
  end.

End Registry.

Arguments Registry : clear implicits.

(** What a table looks like after one fresh name was added to it. *)
Definition adds_one {V : Type} (name : string) (v : V)
    (before after : gmap string V) : Prop :=
  after !! name = Some v
  /\ (forall other, other <> name -> after !! other = before !! other)
  /\ size after = S (size before).


(** *** Observable actions of the facade *)

Inductive Level : Type := DebugLevel | InfoLevel | ErrorLevel.

(** One constructor per logging call of [store.go]. *)
Inductive LogLine : Type :=
| LogCloseConnector (name : string)
| LogCloseDB (name : string)
| LogGetFailed (key : bytes) (err : error)
| LogGetValue (key : bytes) (v : Value)
| LogCasNeedBody (key : bytes)
| LogCasInvalid (key : bytes) (err : error)
| LogCasOldNew (key : bytes) (old new : string)
| LogCasFailed (key : bytes) (err : error)
| LogListFailed (start end_ : bytes) (limit : Z) (err : error)
| LogBatchDeleteFailed (deleted : Z) (start end_ : bytes) (limit : Z)
    (err : error)
| LogBatchDeleted (deleted : Z) (start end_ : bytes)
| LogUnsafeDelete (start end_ : bytes)
| LogUnsafeDeleteFailed (start end_ : bytes) (err : error).

Definition level (l : LogLine) : Level :=
  match l with
  | LogGetValue _ _ | LogCasOldNew _ _ _ => DebugLevel
  | LogCloseConnector _ | LogCloseDB _ | LogBatchDeleted _ _ _
  | LogUnsafeDelete _ _ => InfoLevel
  | _ => ErrorLevel
  end.

(** A log line, or a method invoked on the backend or the connector. *)
Inductive Event : Type :=
| EvLog (l : LogLine)
| EvDBClose
| EvDBUnsafeDelete (start end_ : bytes)
| EvDBCheckAndPut (key oldVal newVal : bytes) (check : CheckFunc)
| EvDBGet (key : bytes) (opt : Option)
| EvDBBatchDelete (start end_ : bytes) (limit : Z)
| EvDBList (start end_ : bytes) (limit : Z) (opt : Option)
| EvConnClose
| EvConnSend (msg : KeyEntry).

(** *** The facade *)

Section Facade.

Context {D C : Type} `{!DB D} `{!Connector C}.

(** [json.Unmarshal(entry, &l)] with [l] a [*Log]: the error and the
    pointer afterwards ([None] when the decoder stored nil). Package
    [utils/json] is not among the sources, so the decoder is a
    parameter of the facade. *)
Variable json_Unmarshal : bytes -> option Log -> error * option Log.

Record Store : Type := mkStore {
  db : option D;
  connector : option C;
  conf : config.Config
}.

Record World : Type := mkWorld {
  this : Store;
  trace : list Event
}.

(** A method of [*Store]: it reads and updates the store and appends
    to the trace, and returns, panics or blocks. *)
Definition M (A : Type) : Type := World -> Outcome A * World.

#[local] Instance M_ret : MRet M := fun A a w => (Ret a, w).

#[local] Instance M_bind : MBind M := fun A B f m w =>
  match m w with
  | (Ret a, w') => f a w'
  | (Panic msg, w') => (Panic msg, w')
  | (Block, w') => (Block, w')
  end.

Definition self : M Store := fun w => (Ret (this w), w).

Definition emit (e : Event) : M unit := fun w =>
  (Ret tt, {| this := this w; trace := trace w ++ [e] |}).

Definition log (l : LogLine) : M unit := emit (EvLog l).

Definition panic {A : Type} (msg : string) : M A := fun w => (Panic msg, w).

(** [s.db.m(...)]: a nil [s.db] panics before the method is entered. *)
Definition call_db {A : Type} (e : Event) (m : D -> A * D) : M A :=
  fun w =>
    match db (this w) with
    | None => (Panic nil_dereference, w)
    | Some d =>
        let (a, d') := m d in
        (Ret a,
         {| this := {| db := Some d'; connector := connector (this w);
                       conf := conf (this w) |};
            trace := trace w ++ [e] |})
    end.

(** [s.connector.m(...)]. *)
Definition call_connector {A : Type} (e : Event)
    (m : C -> Outcome A * C) : M A :=
  fun w =>
    match connector (this w) with
    | None => (Panic nil_dereference, w)
    | Some c =>
        let (o, c') := m c in
        (o,
         {| this := {| db := db (this w); connector := Some c';
                       conf := conf (this w) |};
            trace := trace w ++ [e] |})
    end.

(** [*l] for a pointer [l]. *)
Definition deref {A : Type} (p : option A) : M A :=
  match p with
  | Some a => mret a
  | None => panic nil_dereference
  end.

(** [b != nil] for a slice whose length is not zero here. *)
Definition notNil (b : bytes) : bool := negb (len b =? 0)%Z.

Definition is_set {A : Type} (o : option A) : bool :=
  match o with Some _ => true | None => false end.

Definition Close : M error :=
  s ← self;
  (if is_set (connector s)
   then log (LogCloseConnector (config.Name (config.Connector (conf s))));;
        call_connector EvConnClose conn_Close
   else mret tt);;
  s ← self;
  if is_set (db s)
  then log (LogCloseDB (config.StoreName (config.Store (conf s))));;
       call_db EvDBClose db_Close
  else mret None.

Definition Health : M error :=
  s ← self;
  if is_set (db s) then mret None else mret (Some ErrDatabaseNotExists).

Definition Get (key : bytes) (opt : Option) : M (Value * error) :=
  s ← self;
  if is_set (db s) then
    '(v, err) ← call_db (EvDBGet key opt) (fun d => db_Get d key opt);
    if is_set err && negb (bool_decide (err = Some ErrNotExists)) then
      log (LogGetFailed key err);; mret (NoValue, err)
    else
      log (LogGetValue key v);; mret (v, None)
  else mret (NoValue, Some ErrNotExists).

Definition CheckAndPut (key entry : bytes) (check : CheckFunc) : M error :=
  s ← self;
  if is_set (db s) then
    if (len entry =? 0)%Z then
      log (LogCasNeedBody key);; mret (Some ErrNotExists)
    else
      let '(err, l) :=
        json_Unmarshal entry
          (Some {| Old := EmptyString; New := EmptyString |}) in
      if is_set err then
        log (LogCasInvalid key err);; mret err
      else
        l ← deref l;
        log (LogCasOldNew key (Old l) (New l));;
        err ← call_db
                (EvDBCheckAndPut key (S2B (Old l)) (S2B (New l)) check)
                (fun d => db_CheckAndPut d key (S2B (Old l))
                            (S2B (New l)) check);
        if is_set err then
          log (LogCasFailed key err);; mret err
        else
          s ← self;
          (if notNil entry && is_set (connector s)
           then call_connector
                  (EvConnSend {| Key := key; Entry := entry |})
                  (fun c => conn_Send c {| Key := key; Entry := entry |});;
                mret tt
           else mret tt);;
          mret None
  else mret (Some ErrNotExists).

Definition List (start end_ : bytes) (limit : Z) (option : Option)
  : M (list KeyValue * error) :=
  s ← self;
  if is_set (db s) then
    '(res, err) ← call_db (EvDBList start end_ limit option)
                    (fun d => db_List d start end_ limit option);
    if is_set err then
      log (LogListFailed start end_ limit err);; mret ([], err)
    else mret (res, None)
  else mret ([], Some ErrNotExists).

Definition BatchDelete (start end_ : bytes) (limit : Z)
  : M (bytes * Z * error) :=
  s ← self;
  if is_set (db s) then
    '(lastKey, deleted, err) ←
      call_db (EvDBBatchDelete start end_ limit)
        (fun d => db_BatchDelete d start end_ limit);
    if is_set err then
      log (LogBatchDeleteFailed deleted start end_ limit err);;
      mret (lastKey, deleted, err)
    else
      log (LogBatchDeleted deleted start end_);;
      mret (lastKey, deleted, None)
  else mret ([], 0%Z, Some ErrNotExists).

Definition UnsafeDelete (start end_ : bytes) : M unit :=
  log (LogUnsafeDelete start end_);;
  err ← call_db (EvDBUnsafeDelete start end_)
          (fun d => db_UnsafeDelete d start end_);
  if is_set err then log (LogUnsafeDeleteFailed start end_ err)
  else mret tt.

(** The events of a call of [Close] on a set connector, and on a set
    backend. *)
Definition closing_connector (s : Store) : list Event :=
  [EvLog
     (LogCloseConnector (config.Name (config.Connector (conf s))));
   EvConnClose].

Definition closing_db (s : Store) : list Event :=
  [EvLog
     (LogCloseDB (config.StoreName (config.Store (conf s))));
   EvDBClose].

End Facade.

Arguments Store : clear implicits.
Arguments World : clear implicits.

(** [NewStore]: both configured names must be registered. *)
Definition NewStore {DBDriver ConnectorDriver D C : Type}
    (r : Registry DBDriver ConnectorDriver) (conf : config.Config)
  : option (Store D C) * error :=
  match cDrivers r !! config.Name (config.Connector conf) with
  | None => (None, Some ErrNotRegister)
  | Some _ =>
      match dDrivers r !! config.StoreName (config.Store conf) with
      | None => (None, Some ErrNotRegister)
      | Some _ =>
          (Some {| db := None; connector := None; conf := conf |}, None)
      end
  end.

(** *** Open *)

(** The lines the two tasks of [Open] log. *)
Inductive OpenLogLine : Type :=
| LogOpenConnectorFailed (name : string) (err : error)
| LogOpenDBFailed (name : string) (err : error).

Section Opening.

Context {D C DBDriver ConnectorDriver : Type}.

(** [DBDriver.Open] and [ConnectorDriver.Open]: the handle and the error
    they return. *)
Variable DBDriver_Open : DBDriver -> config.Config -> option D * error.
Variable ConnectorDriver_Open
  : ConnectorDriver -> config.Config -> option C * error.

(** The task of [Open] that opens the connector: a driver missing from
    the table is a nil interface, whose [Open] panics. *)
Definition open_connector (r : Registry DBDriver ConnectorDriver)
    (s : Store D C) : Outcome (list OpenLogLine) * Store D C :=
  match cDrivers r !! config.Name (config.Connector (conf s)) with
  | None => (Panic nil_dereference, s)
  | Some cDriver =>
      let (connector, err) := ConnectorDriver_Open cDriver (conf s) in
      if is_set err then
        (Ret [LogOpenConnectorFailed
                (config.Name (config.Connector (conf s))) err], s)
      else
        (Ret [], {| db := db s; connector := connector; conf := conf s |})
  end.

(** The task of [Open] that opens the backend. *)
Definition open_db (r : Registry DBDriver ConnectorDriver)
    (s : Store D C) : Outcome (list OpenLogLine) * Store D C :=
  match dDrivers r !! config.StoreName (config.Store (conf s)) with
  | None => (Panic nil_dereference, s)
  | Some dDriver =>
      let (db, err) := DBDriver_Open dDriver (conf s) in
      if is_set err then
        (Ret [LogOpenDBFailed (config.StoreName (config.Store (conf s))) err],
         s)
      else
        (Ret [], {| db := db; connector := connector s; conf := conf s |})
  end.

(** [Open] once both of its tasks have run, the connector's first or the
    backend's first; a panic of either ends the process. *)
Definition Open (connector_first : bool)
    (r : Registry DBDriver ConnectorDriver) (s : Store D C)
  : Outcome (list OpenLogLine) * Store D C :=
  let first := if connector_first then open_connector else open_db in
  let second := if connector_first then open_db else open_connector in
  match first r s with
  | (Ret l1, s1) =>
      match second r s1 with
      | (Ret l2, s2) => (Ret (l1 ++ l2), s2)
      | (Panic m, s2) => (Panic m, s2)
      | (Block, s2) => (Block, s2)
      end
  | (Panic m, s1) => (Panic m, s1)
  | (Block, s1) => (Block, s1)
  end.

End Opening.

(** The events that are calls of the connector. *)
Definition is_connector_event (e : Event) : bool :=
  match e with
  | EvConnClose | EvConnSend _ => true
  | _ => false
  end.

(** The events that are calls of the backend. *)
Definition is_db_event (e : Event) : bool :=
  match e with
  | EvLog _ | EvConnClose | EvConnSend _ => false
  | _ => true
  end.

End store.

(** ** Go runtime: slices, byte order, channels, timers *)

Definition slice_out_of_range : string := "slice bounds out of range".

(** [b[lo:hi]] on a slice whose capacity is its length. *)
Definition slice (b : bytes) (lo hi : Z) : Outcome bytes :=
  if ((0 <=? lo) && (lo <=? hi) && (hi <=? len b))%Z
  then Ret (firstn (Z.to_nat (hi - lo)) (skipn (Z.to_nat lo) b))
  else Panic slice_out_of_range.

(** [binary.BigEndian.PutUint32], as [binary.Write] uses it. *)
Definition PutUint32 (v : Z) : bytes :=
  [ byte_of_Z (Z.shiftr v 24); byte_of_Z (Z.shiftr v 16);
    byte_of_Z (Z.shiftr v 8); byte_of_Z v ].

(** [binary.BigEndian.Uint32]; it indexes [b[3]] first. *)
Definition Uint32 (b : bytes) : Outcome Z :=
  match b with
  | b0 :: b1 :: b2 :: b3 :: _ =>
      Ret (Z.lor (Z.lor (Z.lor (Z_of_byte b3) (Z.shiftl (Z_of_byte b2) 8))
                    (Z.shiftl (Z_of_byte b1) 16))
             (Z.shiftl (Z_of_byte b0) 24))
  | _ => Panic "index out of range"
  end.

(** A buffered channel: its queue, its capacity, whether it is closed. *)
Record chan (A : Type) : Type := mkChan {
  chan_buf : list A;
  chan_cap : nat;
  chan_closed : bool
}.

Arguments mkChan {A}.
Arguments chan_buf {A}.
Arguments chan_cap {A}.
Arguments chan_closed {A}.

Definition make_chan {A : Type} (cap : nat) : chan A :=
  {| chan_buf := []; chan_cap := cap; chan_closed := false |}.

(** [ch <- x] *)
Definition chan_send {A : Type} (ch : chan A) (x : A) : Outcome unit * chan A :=
  if chan_closed ch then (Panic "send on closed channel", ch)
  else if length (chan_buf ch) <? chan_cap ch
       then (Ret tt, {| chan_buf := chan_buf ch ++ [x];
                        chan_cap := chan_cap ch;
                        chan_closed := false |})
       else (Block, ch).

(** [close(ch)] *)
Definition chan_close {A : Type} (ch : chan A) : Outcome unit * chan A :=
  if chan_closed ch then (Panic "close of closed channel", ch)
  else (Ret tt, {| chan_buf := chan_buf ch; chan_cap := chan_cap ch;
                   chan_closed := true |}).

(** [x, ok := <-ch]: [Ret None] is the [ok = false] of a drained, closed
    channel. *)
Definition chan_recv {A : Type} (ch : chan A) : Outcome (option A) * chan A :=
  match chan_buf ch with
  | x :: rest =>
      (Ret (Some x), {| chan_buf := rest; chan_cap := chan_cap ch;
                        chan_closed := chan_closed ch |})
  | [] => if chan_closed ch then (Ret None, ch) else (Block, ch)
  end.

(** A [time.Timer] seen from its owner: the instant at which it will fire
    while it is active, and whether a tick waits in its channel [C]. *)
Record Timer : Type := mkTimer {
  expiry : option Z;
  tick : bool
}.

Definition NewTimer (now d : Z) : Timer :=
  {| expiry := Some (now + d)%Z; tick := false |}.

(** The runtime fires an active timer whose instant has come. *)
Definition Timer_fire (now : Z) (t : Timer) : Timer :=
  match expiry t with
  | Some e => if (e <=? now)%Z then {| expiry := None; tick := true |} else t
  | None => t
  end.

(** [t.Stop()]: true when the call stops an active timer. *)
Definition Timer_Stop (t : Timer) : bool * Timer :=
  (match expiry t with Some _ => true | None => false end,
   {| expiry := None; tick := tick t |}).

(** [select { case <-t.C: default: }] *)
Definition Timer_drain (t : Timer) : Timer :=
  {| expiry := expiry t; tick := false |}.

(** [t.Reset(d)] *)
Definition Timer_Reset (now d : Z) (t : Timer) : Timer :=
  {| expiry := Some (now + d)%Z; tick := tick t |}.

(** Time until [<-t.C] can proceed; [None]: never. *)
Definition Timer_ready_in (now : Z) (t : Timer) : option Z :=
  if tick t then Some 0%Z
  else match expiry t with
       | Some e => Some (Z.max 0 (e - now))
       | None => None
       end.

(** A timer never holds a tick while it is active: so it is when it is
    made, and the idiom of [runQueue] keeps it so. *)
Definition no_stale_tick (t : Timer) : Prop :=
  tick t = true -> expiry t = None.

(** ** Package sarama (the producer interface the connector uses) *)

Module sarama.

Record ProducerMessage : Type := mkProducerMessage {
  Topic : string;
  Key : bytes;
  Value : bytes
}.

Inductive RequiredAcks : Type := NoResponse | WaitForLocal | WaitForAll.

Definition BackoffFunc : Type := Z -> Z -> Z.

(** The fields of [sarama.Config] that [Driver.Open] assigns. *)
Record Config : Type := mkConfig {
  Metadata_Full : bool;
  Metadata_Retry_Max : Z;
  Metadata_Retry_BackoffFunc : BackoffFunc;
  Producer_RequiredAcks : RequiredAcks;
  Producer_Flush_Frequency : Z;
  Producer_Retry_Max : Z;
  Producer_Retry_BackoffFunc : BackoffFunc
}.

(** [AsyncProducer]: [Input_ready_in p m] is the time after which a send
    of [m] on [p.Input()] is taken ([None]: never), [Input_take] the
    producer once it has taken [m]; [Input_first] tells whether the send
    wins a [select] in which another case is ready at the same instant. *)
Class AsyncProducer (P : Type) : Type := {
  Close : P -> error * P;
  Input_ready_in : P -> ProducerMessage -> option Z;
  Input_take : P -> ProducerMessage -> P;
  Input_first : P -> bool
}.

End sarama.

(** ** Package diskqueue (the durable queue interface) *)

Module diskqueue.

Class Interface (Q : Type) : Type := {
  Put : Q -> bytes -> error * Q;
  Close : Q -> error * Q
}.

End diskqueue.

Definition Millisecond : Z := 1000000.

(** The outcome monad of straight-line code that may panic or block. *)
Definition obind {A B : Type} (o : Outcome A) (f : A -> Outcome B)
  : Outcome B :=
  match o with
  | Ret a => f a
  | Panic msg => Panic msg
  | Block => Block
  end.

(** ** Package kafka *)

Module kafka.

Definition MaxMessage : nat := 1024.
Definition MQ : string := "kafka".

(** [Driver.Name] *)
Definition Driver_Name (d : unit) : string := MQ.

(** One constructor per logging call of the connector. *)
Inductive LogLine : Type :=
| LogMkdirFailed (err : error)
| LogStartProducerFailed (err : error)
| LogBufferWriteFailed (err : error)
| LogPutQueueFailed (err : error)
| LogPutKafkaTimeout (key : bytes)
| LogProducerFailed (err : Err)
| LogQueueCloseFailed (err : error)
| LogProducerCloseFailed (err : error).

(** The closure [backoff] of [Driver.Open]: [backoff_b] is the value of
    its local [b] when it returns, [backoff] what it returns. *)
Definition backoff_b (conf : config.Config) (retries maxRetries : Z) : Z :=
  let b := int64 (config.BackOff (config.Connector conf)
                  * int64 (retries + 1)) in
  if (config.MaxBackOff (config.Connector conf) <? b)%Z
  then config.MaxBackOff (config.Connector conf)
  else b.

Definition backoff (conf : config.Config) (retries maxRetries : Z) : Z :=
  let b := backoff_b conf retries maxRetries in
  config.MaxBackOff (config.Connector conf).

(** The [sarama.Config] that [Driver.Open] builds. *)
Definition producer_config (conf : config.Config) : sarama.Config :=
  {| sarama.Metadata_Full := config.FetchMetadata (config.Connector conf);
     sarama.Metadata_Retry_Max := config.Retry (config.Connector conf);
     sarama.Metadata_Retry_BackoffFunc := backoff conf;
     sarama.Producer_RequiredAcks := sarama.WaitForLocal;
     sarama.Producer_Flush_Frequency := 500 * Millisecond;
     sarama.Producer_Retry_Max := config.Retry (config.Connector conf);
     sarama.Producer_Retry_BackoffFunc := backoff conf |}.

(** The record [putQueue] writes for a message. *)
Definition encode (msg : store.KeyEntry) : bytes :=
  let keyLen := uint32 (len (store.Key msg)) in
  PutUint32 keyLen ++ store.Key msg ++ store.Entry msg.

(** [keyLen := binary.BigEndian.Uint32(body[:4])] *)
Definition read_keyLen (body : bytes) : Outcome Z :=
  obind (slice body 0 4) Uint32.

(** The message [runProducer] sends for a record and its [keyLen]; the
    index [keyLen+4] is computed in [uint32]. *)
Definition message (topic : string) (body : bytes) (keyLen : Z)
  : Outcome sarama.ProducerMessage :=
  obind (slice body 4 (uint32 (keyLen + 4))) (fun key =>
  obind (slice body (uint32 (keyLen + 4)) (len body)) (fun value =>
  Ret {| sarama.Topic := topic; sarama.Key := key;
         sarama.Value := value |})).

(** Decoding a record of the queue, as [runProducer] does it. *)
Definition decode (topic : string) (body : bytes)
  : Outcome sarama.ProducerMessage :=
  obind (read_keyLen body) (message topic body).

(** The key length a record declares in its first four bytes, and the
    records that are truncated or declare a key longer than what follows
    the header. *)
Definition declared_keyLen (body : bytes) : Z :=
  match Uint32 body with
  | Ret keyLen => keyLen
  | _ => 0%Z
  end.

Definition corrupt (body : bytes) : bool :=
  ((len body <? 4) || (len body - 4 <? declared_keyLen body))%Z.

(** What [runProducer] receives from its [select]: a producer error, a
    record of the queue, or the closing of either channel. *)
Inductive Recv : Type :=
| RecvError (err : Err)
| RecvBody (body : bytes)
| RecvClosed.

Section Connector.

Context {Q P : Type} `{!diskqueue.Interface Q} `{!sarama.AsyncProducer P}.

Record Connector : Type := mkConnector {
  producer : option P;
  log : list LogLine;
  queue : Q;
  writeBuf : bytes;
  writeChan : chan store.KeyEntry;
  conf : config.Config
}.

Definition Errorf (l : LogLine) (c : Connector) : Connector :=
  {| producer := producer c; log := log c ++ [l]; queue := queue c;
     writeBuf := writeBuf c; writeChan := writeChan c; conf := conf c |}.

Definition set_producer (p : option P) (c : Connector) : Connector :=
  {| producer := p; log := log c; queue := queue c;
     writeBuf := writeBuf c; writeChan := writeChan c; conf := conf c |}.

Definition set_queue (q : Q) (c : Connector) : Connector :=
  {| producer := producer c; log := log c; queue := q;
     writeBuf := writeBuf c; writeChan := writeChan c; conf := conf c |}.

Definition set_writeBuf (b : bytes) (c : Connector) : Connector :=
  {| producer := producer c; log := log c; queue := queue c;
     writeBuf := b; writeChan := writeChan c; conf := conf c |}.

Definition set_writeChan (ch : chan store.KeyEntry) (c : Connector)
  : Connector :=
  {| producer := producer c; log := log c; queue := queue c;
     writeBuf := writeBuf c; writeChan := ch; conf := conf c |}.

Definition cconf (c : Connector) : config.ConnectorConf :=
  config.Connector (conf c).

(** [Driver.Open], given what [os.MkdirAll], [diskqueue.New] and
    [sarama.NewAsyncProducer] return; the log lines are those written
    before a connector exists. The two tasks it starts are [runQueue]
    and [runProducer] below. *)
Definition Open (MkdirAll : error) (New : Q)
    (NewAsyncProducer : sarama.Config -> option P * error)
    (conf : config.Config) : option Connector * error * list LogLine :=
  if store.is_set MkdirAll then (None, MkdirAll, [LogMkdirFailed MkdirAll])
  else
    let conn := {| producer := None; log := []; queue := New;
                   writeBuf := []; writeChan := make_chan MaxMessage;
                   conf := conf |} in
    if config.EnableProducer (config.Connector conf) then
      let c := producer_config conf in
      let '(producer, err) := NewAsyncProducer c in
      if store.is_set err then (None, err, [LogStartProducerFailed err])
      else (Some (set_producer producer conn), None, [])
    else (Some conn, None, []).

(** [putQueue]; writes to a [bytes.Buffer] do not fail. *)
Definition putQueue (msg : store.KeyEntry) (c : Connector)
  : error * Connector :=
  let c := set_writeBuf [] c in
  let keyLen := uint32 (len (store.Key msg)) in
  let c := set_writeBuf (writeBuf c ++ PutUint32 keyLen) c in
  let c := set_writeBuf (writeBuf c ++ store.Key msg) c in
  let c := set_writeBuf (writeBuf c ++ store.Entry msg) c in
  let (err, q) := diskqueue.Put (queue c) (writeBuf c) in
  (err, set_queue q c).

(** A running task of the connector: the connector, the task's timer,
    the clock, and the messages it has offered to [producer.Input()]. *)
Record Task : Type := mkTask {
  conn : Connector;
  timer : Timer;
  now : Z;
  offered : list sarama.ProducerMessage
}.

(** The inner [select] of [runQueue]: send [input] or take the tick. *)
Inductive Selected : Type :=
| SentInput (after : Z)
| TimedOut (after : Z)
| Stuck.

Definition select_input_or_timer (p : P) (input : sarama.ProducerMessage)
    (now : Z) (t : Timer) : Selected :=
  match sarama.Input_ready_in p input, Timer_ready_in now t with
  | None, None => Stuck
  | Some d, None => SentInput (Z.max 0 d)
  | None, Some w => TimedOut w
  | Some d, Some w =>
      if (Z.max 0 d <? w)%Z then SentInput (Z.max 0 d)
      else if (w <? Z.max 0 d)%Z then TimedOut w
      else if sarama.Input_first p then SentInput (Z.max 0 d)
      else TimedOut w
  end.

(** The timer idiom of [runQueue] before its inner [select]: stop the
    timer, drain a tick that already fired, reset it to [d]. *)
Definition rearm (now d : Z) (t : Timer) : Timer :=
  let tm := Timer_fire now t in
  let (active, tm) := Timer_Stop tm in
  let tm := if negb active then Timer_drain tm else tm in
  Timer_Reset now d tm.

(** The body of [runQueue]'s loop for one received message. *)
Definition runQueue_msg (msg : store.KeyEntry) (t : Task)
  : Outcome unit * Task :=
  let (err, c) := putQueue msg (conn t) in
  if store.is_set err then
    let c := Errorf (LogPutQueueFailed err) c in
    if negb (config.EnableProducer (cconf c)) then
      (Ret tt, {| conn := c; timer := timer t; now := now t;
                  offered := offered t |})
    else
      let input := {| sarama.Topic := config.Topic (cconf c);
                      sarama.Key := store.Key msg;
                      sarama.Value := store.Entry msg |} in
      let tm := rearm (now t) (config.WriteTimeout (cconf c)) (timer t) in
      match producer c with
      | None =>
          (Panic nil_dereference,
           {| conn := c; timer := tm; now := now t;
              offered := offered t |})
      | Some p =>
          match select_input_or_timer p input (now t) tm with
          | SentInput d =>
              (Ret tt,
               {| conn := set_producer (Some (sarama.Input_take p input)) c;
                  timer := tm; now := now t + d;
                  offered := offered t ++ [input] |})
          | TimedOut w =>
              (Ret tt,
               {| conn := Errorf (LogPutKafkaTimeout (store.Key msg)) c;
                  timer := Timer_drain (Timer_fire (now t + w) tm);
                  now := now t + w;
                  offered := offered t ++ [input] |})
          | Stuck =>
              (Block,
               {| conn := c; timer := tm; now := now t;
                  offered := offered t ++ [input] |})
          end
      end
  else
    (Ret tt, {| conn := c; timer := timer t; now := now t;
                offered := offered t |}).

(** The task once [<-c.writeChan] took the head of the buffer and left
    [rest] in it. *)
Definition received (rest : list store.KeyEntry) (t : Task) : Task :=
  let ch := {| chan_buf := rest;
               chan_cap := chan_cap (writeChan (conn t));
               chan_closed := chan_closed (writeChan (conn t)) |} in
  {| conn := set_writeChan ch (conn t); timer := timer t;
     now := now t; offered := offered t |}.

(** The message [runQueue] offers to the producer when the queue refused
    the record of [msg]. *)
Definition fallback_input (c : Connector) (msg : store.KeyEntry)
  : sarama.ProducerMessage :=
  {| sarama.Topic := config.Topic (cconf c);
     sarama.Key := store.Key msg; sarama.Value := store.Entry msg |}.


(** [runQueue]'s loop over the messages buffered in [writeChan]: it
    returns when the channel is closed and drained, and blocks when it
    is open and empty. *)
Fixpoint runQueue_loop (buf : list store.KeyEntry) (t : Task)
  : Outcome unit * Task :=
  match buf with
  | [] =>
      if chan_closed (writeChan (conn t)) then (Ret tt, t) else (Block, t)
  | msg :: rest =>
      match runQueue_msg msg (received rest t) with
      | (Ret _, t') => runQueue_loop rest t'
      | (Panic m, t') => (Panic m, t')
      | (Block, t') => (Block, t')
      end
  end.

Definition runQueue (start : Z) (c : Connector) : Outcome unit * Task :=
  let timer := NewTimer start (config.WriteTimeout (cconf c)) in
  runQueue_loop (chan_buf (writeChan c))
    {| conn := c; timer := timer; now := start; offered := [] |}.

(** The body of [runProducer]'s loop for one record of the queue. *)
Definition runProducer_body (body : bytes) (t : Task)
  : Outcome unit * Task :=
  match read_keyLen body with
  | Ret keyLen =>
      match producer (conn t) with
      | None => (Panic nil_dereference, t)
      | Some p =>
          match message (config.Topic (cconf (conn t))) body keyLen with
          | Ret m =>
              match sarama.Input_ready_in p m with
              | Some d =>
                  (Ret tt,
                   {| conn := set_producer
                                (Some (sarama.Input_take p m)) (conn t);
                      timer := timer t; now := now t + Z.max 0 d;
                      offered := offered t ++ [m] |})
              | None =>
                  (Block,
                   {| conn := conn t; timer := timer t; now := now t;
                      offered := offered t ++ [m] |})
              end
          | Panic msg => (Panic msg, t)
          | Block => (Block, t)
          end
      end
  | Panic msg => (Panic msg, t)
  | Block => (Block, t)
  end.

(** The message [runProducer] forwards for a well-formed record: key and
    value are the parts after the header that the declared key length
    delimits. *)
Definition forwarded (c : Connector) (body : bytes) : sarama.ProducerMessage :=
  {| sarama.Topic := config.Topic (cconf c);
     sarama.Key := firstn (Z.to_nat (declared_keyLen body)) (skipn 4 body);
     sarama.Value := skipn (Z.to_nat (declared_keyLen body + 4)) body |}.

(** [runProducer] over what its [select] receives, in order. *)
Fixpoint runProducer (rs : list Recv) (t : Task) : Outcome unit * Task :=
  match rs with
  | [] => (Block, t)
  | RecvClosed :: _ => (Ret tt, t)
  | RecvError err :: rest =>
      runProducer rest
        {| conn := Errorf (LogProducerFailed err) (conn t);
           timer := timer t; now := now t; offered := offered t |}
  | RecvBody body :: rest =>
      match runProducer_body body t with
      | (Ret _, t') => runProducer rest t'
      | (Panic m, t') => (Panic m, t')
      | (Block, t') => (Block, t')
      end
  end.

(** [Connector.Send] *)
Definition Send (c : Connector) (msg : store.KeyEntry)
  : Outcome error * Connector :=
  match chan_send (writeChan c) msg with
  | (Ret _, ch) => (Ret None, set_writeChan ch c)
  | (Panic m, ch) => (Panic m, set_writeChan ch c)
  | (Block, ch) => (Block, set_writeChan ch c)
  end.

(** [Connector.Close] *)
Definition Close (c : Connector) : Outcome unit * Connector :=
  match chan_close (writeChan c) with
  | (Ret _, ch) =>
      let c := set_writeChan ch c in
      let (err, q) := diskqueue.Close (queue c) in
      let c := set_queue q c in
      let c := if store.is_set err then Errorf (LogQueueCloseFailed err) c
               else c in
      if config.EnableProducer (cconf c) then
        match producer c with
        | None => (Panic nil_dereference, c)
        | Some p =>
            let (err, p) := sarama.Close p in
            let c := set_producer (Some p) c in
            (Ret tt,
             if store.is_set err
             then Errorf (LogProducerCloseFailed err) c else c)
        end
      else (Ret tt, c)
  | (Panic m, ch) => (Panic m, c)
  | (Block, ch) => (Block, c)
  end.

(** The lines [Close] logs for what the queue and the producer report
    when they are closed. *)
Definition close_failures (c : Connector) : list LogLine :=
  (if store.is_set (fst (diskqueue.Close (queue c)))
   then [LogQueueCloseFailed (fst (diskqueue.Close (queue c)))]
   else [])
  ++ (if config.EnableProducer (cconf c) then
        match producer c with
        | Some p =>
            if store.is_set (fst (sarama.Close p))
            then [LogProducerCloseFailed (fst (sarama.Close p))]
            else []
        | None => []
        end
      else []).

(** Successive calls of [Send], as the write path makes them: the calls
    stop at the first that does not return. *)
Fixpoint Send_all (msgs : list store.KeyEntry) (c : Connector)
  : Outcome unit * Connector :=
  match msgs with
  | [] => (Ret tt, c)
  | msg :: rest =>
      match Send c msg with
      | (Ret _, c') => Send_all rest c'
      | (Panic m, c') => (Panic m, c')
      | (Block, c') => (Block, c')
      end
  end.

(** The queue after it was handed the records in turn, and whether it
    accepted them all. *)
Fixpoint queue_after (records : list bytes) (q : Q) : Q :=
  match records with
  | [] => q
  | r :: rest => queue_after rest (snd (diskqueue.Put q r))
  end.

Fixpoint accepts_all (records : list bytes) (q : Q) : bool :=
  match records with
  | [] => true
  | r :: rest =>
      negb (store.is_set (fst (diskqueue.Put q r)))
      && accepts_all rest (snd (diskqueue.Put q r))
  end.

(** The producer after it took the messages in turn. *)
Fixpoint producer_after (ms : list sarama.ProducerMessage) (p : P) : P :=
  match ms with
  | [] => p
  | m :: rest => producer_after rest (sarama.Input_take p m)
  end.

#[global] Instance Connector_is_store_Connector
  : store.Connector Connector :=
  {| store.conn_Close := Close; store.conn_Send := Send |}.

End Connector.

Arguments Connector : clear implicits.
Arguments Task : clear implicits.

End kafka.

(** ** Sample implementations of the interfaces

    Small implementations of [DB], [diskqueue.Interface],
    [sarama.AsyncProducer] and of the JSON decoder, used to run the
    facade and the connector on concrete inputs. *)

Module samples.

#[global] Instance byte_eq_decision : EqDecision byte := Byte.byte_eq_dec.

(** An in-memory backend: its cells, and what its [Close] returns. *)
Record MemKV : Type := mkMemKV {
  cells : list (bytes * bytes);
  close_error : error
}.

Fixpoint find (key : bytes) (l : list (bytes * bytes)) : option bytes :=
  match l with
  | [] => None
  | (k, v) :: rest => if decide (k = key) then Some v else find key rest
  end.

Fixpoint remove (key : bytes) (l : list (bytes * bytes))
  : list (bytes * bytes) :=
  match l with
  | [] => []
  | (k, v) :: rest =>
      if decide (k = key) then remove key rest else (k, v) :: remove key rest
  end.

Definition put (key val : bytes) (m : MemKV) : MemKV :=
  {| cells := (key, val) :: remove key (cells m);
     close_error := close_error m |}.

#[global] Instance MemKV_DB : store.DB MemKV := {|
  store.db_Close m := (close_error m, m);
  store.db_Put m key val := (None, put key val m);
  store.db_UnsafeDelete m start end_ := (None, m);
  store.db_CheckAndPut m key oldVal newVal check :=
    let existVal := match find key (cells m) with
                    | Some v => v
                    | None => []
                    end in
    let (final, err) := check oldVal newVal existVal in
    if store.is_set err then (err, m) else (None, put key final m);
  store.db_Get m key opt :=
    match find key (cells m) with
    | Some v => (({| store.Secondary := false; store.Val := v |}, None), m)
    | None => ((store.NoValue, Some ErrNotExists), m)
    end;
  store.db_BatchDelete m start end_ limit := (([], 0%Z, None), m);
  store.db_List m start end_ limit opt := (([], None), m)
|}.

(** A backend that answers every read from a secondary region which
    keeps the last value of a deleted key: it reports not-found together
    with that value. *)
Record Secondary : Type := mkSecondary { last_value : bytes }.

#[global] Instance Secondary_DB : store.DB Secondary := {|
  store.db_Close m := (None, m);
  store.db_Put m key val := (None, m);
  store.db_UnsafeDelete m start end_ := (None, m);
  store.db_CheckAndPut m key oldVal newVal check := (None, m);
  store.db_Get m key opt :=
    (({| store.Secondary := true; store.Val := last_value m |},
      Some ErrNotExists), m);
  store.db_BatchDelete m start end_ limit := (([], 0%Z, None), m);
  store.db_List m start end_ limit opt := (([], None), m)
|}.

(** A backend whose reads fail with an error of its own. *)
Record Broken : Type := mkBroken { failure : Err }.

#[global] Instance Broken_DB : store.DB Broken := {|
  store.db_Close m := (Some (failure m), m);
  store.db_Put m key val := (Some (failure m), m);
  store.db_UnsafeDelete m start end_ := (Some (failure m), m);
  store.db_CheckAndPut m key oldVal newVal check := (Some (failure m), m);
  store.db_Get m key opt := ((store.NoValue, Some (failure m)), m);
  store.db_BatchDelete m start end_ limit :=
    (([], 0%Z, Some (failure m)), m);
  store.db_List m start end_ limit opt := (([], Some (failure m)), m)
|}.

(** The usual check function: the stored value must be the old one. *)
Definition check_equal : store.CheckFunc := fun oldVal newVal existVal =>
  if decide (existVal = oldVal) then (newVal, None)
  else ([], Some (Errorf "value changed")).

(** A queue in memory that refuses records above a size, and every
    record once it is closed. *)
Record MemQueue : Type := mkMemQueue {
  records : list bytes;
  max_msg_size : Z;
  queue_closed : bool
}.

#[global] Instance MemQueue_Interface : diskqueue.Interface MemQueue := {|
  diskqueue.Put q b :=
    if queue_closed q then (Some (Errorf "exiting"), q)
    else if (max_msg_size q <? len b)%Z
         then (Some (Errorf "invalid message write size"), q)
         else (None, {| records := records q ++ [b];
                        max_msg_size := max_msg_size q;
                        queue_closed := false |});
  diskqueue.Close q :=
    (None, {| records := records q; max_msg_size := max_msg_size q;
              queue_closed := true |})
|}.

(** A producer that takes a message after a fixed delay, or never. *)
Record MemProducer : Type := mkMemProducer {
  taken : list sarama.ProducerMessage;
  ready_in : option Z;
  wins_tie : bool
}.

#[global] Instance MemProducer_AsyncProducer
  : sarama.AsyncProducer MemProducer := {|
  sarama.Close p := (None, p);
  sarama.Input_ready_in p m := ready_in p;
  sarama.Input_take p m :=
    {| taken := taken p ++ [m]; ready_in := ready_in p;
       wins_tie := wins_tie p |};
  sarama.Input_first p := wins_tie p
|}.

(** A decoder for the one shape of entry the facade needs:
    an object with the string fields old and new, in this order and
    without escapes, or the literal null. *)
Definition quote : string := String "034"%char EmptyString.

Fixpoint strip (prefix s : string) : option string :=
  match prefix, s with
  | EmptyString, _ => Some s
  | String a p, String b r => if decide (a = b) then strip p r else None
  | String _ _, EmptyString => None
  end.

Fixpoint until_quote (s : string) : option (string * string) :=
  match s with
  | EmptyString => None
  | String a r =>
      if decide (a = "034"%char) then Some (EmptyString, r)
      else match until_quote r with
           | Some (w, rest) => Some (String a w, rest)
           | None => None
           end
  end.

Definition Unmarshal (entry : bytes) (l : option store.Log)
  : error * option store.Log :=
  let s := String.string_of_list_byte entry in
  let bad := (Some (Errorf "invalid character"), l) in
  if decide (s = "null") then (None, None)
  else
    match strip ("{" +:+ quote +:+ "old" +:+ quote +:+ ":" +:+ quote) s with
    | Some r1 =>
        match until_quote r1 with
        | Some (old, r2) =>
            match strip ("," +:+ quote +:+ "new" +:+ quote +:+ ":" +:+ quote)
                    r2 with
            | Some r3 =>
                match until_quote r3 with
                | Some (new, r4) =>
                    if decide (r4 = "}")
                    then (None, Some {| store.Old := old; store.New := new |})
                    else bad
                | None => bad
                end
            | None => bad
            end
        | None => bad
        end
    | None => bad
    end.

(** The entry of the scenario: old a, new b. *)
Definition entry_a_b : bytes :=
  S2B ("{" +:+ quote +:+ "old" +:+ quote +:+ ":" +:+ quote +:+ "a" +:+ quote
       +:+ "," +:+ quote +:+ "new" +:+ quote +:+ ":" +:+ quote +:+ "b"
       +:+ quote +:+ "}").

Definition conf0 : config.Config :=
  {| config.Connector :=
       {| config.Name := "kafka"; config.EnableProducer := true;
          config.Topic := "tikv"; config.Retry := 3;
          config.BackOff := 1000 * Millisecond;
          config.MaxBackOff := 10000 * Millisecond;
          config.FetchMetadata := false;
          config.WriteTimeout := 100 * Millisecond |};
     config.Store := {| config.StoreName := "memkv" |} |}.

Definition conf_no_producer : config.Config :=
  {| config.Connector :=
       {| config.Name := "kafka"; config.EnableProducer := false;
          config.Topic := "tikv"; config.Retry := 3;
          config.BackOff := 1000 * Millisecond;
          config.MaxBackOff := 10000 * Millisecond;
          config.FetchMetadata := false;
          config.WriteTimeout := 100 * Millisecond |};
     config.Store := {| config.StoreName := "memkv" |} |}.

Definition u1 : bytes := S2B "u1".

(** A backend that holds a under u1. *)
Definition memkv0 : MemKV :=
  {| cells := [(u1, S2B "a")]; close_error := None |}.

Definition queue0 : MemQueue :=
  {| records := []; max_msg_size := 1024; queue_closed := false |}.

Definition producer0 : MemProducer :=
  {| taken := []; ready_in := Some 0%Z; wins_tie := true |}.

(** The connector [Driver.Open] returns for [conf0]. *)
Definition connector0 : kafka.Connector MemQueue MemProducer :=
  {| kafka.producer := Some producer0; kafka.log := [];
     kafka.queue := queue0; kafka.writeBuf := [];
     kafka.writeChan := make_chan kafka.MaxMessage;
     kafka.conf := conf0 |}.

(** The same connector with its intake filled to capacity. *)
Definition connector_full : kafka.Connector MemQueue MemProducer :=
  kafka.set_writeChan
    {| chan_buf := repeat {| store.Key := u1; store.Entry := entry_a_b |}
                     kafka.MaxMessage;
       chan_cap := kafka.MaxMessage; chan_closed := false |}
    connector0.

Abbreviation KConnector := (kafka.Connector MemQueue MemProducer).

(** The facade over the in-memory backend and a connector. *)
Definition facade (c : option KConnector) : store.World MemKV KConnector :=
  {| store.this := {| store.db := Some memkv0; store.connector := c;
                      store.conf := conf0 |};
     store.trace := [] |}.

(** The facade before either open has completed. *)
Definition facade_unopened : store.World MemKV KConnector :=
  {| store.this := {| store.db := None; store.connector := None;
                      store.conf := conf0 |};
     store.trace := [] |}.

(** The facade over the backend that reads from a secondary region. *)
Definition facade_secondary : store.World Secondary KConnector :=
  {| store.this := {| store.db := Some {| last_value := S2B "a" |};
                      store.connector := None; store.conf := conf0 |};
     store.trace := [] |}.

(** The facade over a backend whose [Close] fails. *)
Definition facade_closing : store.World MemKV KConnector :=
  {| store.this :=
       {| store.db := Some {| cells := [];
                              close_error := Some (Errorf "close failed") |};
          store.connector := Some connector0; store.conf := conf0 |};
     store.trace := [] |}.

Definition k1v1 : store.KeyEntry :=
  {| store.Key := S2B "k1"; store.Entry := S2B "v1" |}.

(** A task of [connector0] at time zero. *)
Definition task0 : kafka.Task MemQueue MemProducer :=
  {| kafka.conn := connector0;
     kafka.timer :=
       NewTimer 0 (config.WriteTimeout (config.Connector conf0));
     kafka.now := 0; kafka.offered := [] |}.

(** A task whose queue refuses every record and whose producer takes
    nothing. *)
Definition task_stalled : kafka.Task MemQueue MemProducer :=
  {| kafka.conn :=
       {| kafka.producer :=
            Some {| taken := []; ready_in := None; wins_tie := false |};
          kafka.log := [];
          kafka.queue := {| records := []; max_msg_size := 1024;
                            queue_closed := true |};
          kafka.writeBuf := [];
          kafka.writeChan := make_chan kafka.MaxMessage;
          kafka.conf := conf0 |};
     kafka.timer :=
       NewTimer 0 (config.WriteTimeout (config.Connector conf0));
     kafka.now := 0; kafka.offered := [] |}.

(** A truncated record, one that declares five key bytes and holds one,
    and a key of [2^32] bytes. *)
Definition truncated : bytes := [Byte.x00; Byte.x00; Byte.x00].

Definition overlong : bytes :=
  [Byte.x00; Byte.x00; Byte.x00; Byte.x05; Byte.x01].

Definition long_key : bytes := repeat Byte.x00 (Z.to_nat 4294967296).

(** A producer that takes every message at once. *)
Record Eager : Type := mkEager { got : list sarama.ProducerMessage }.

#[global] Instance Eager_AsyncProducer : sarama.AsyncProducer Eager := {|
  sarama.Close p := (None, p);
  sarama.Input_ready_in p m := Some 0%Z;
  sarama.Input_take p m := {| got := got p ++ [m] |};
  sarama.Input_first p := true
|}.

(** A backend driver that opens the in-memory backend or fails, and the
    kafka driver over the in-memory queue and producer. *)
Record MemDriver : Type := mkMemDriver {
  driver_name : string;
  opens : option MemKV * error
}.

Definition MemDriver_Open (d : MemDriver) (conf : config.Config)
  : option MemKV * error := opens d.

Definition Driver_Open (d : unit) (conf : config.Config)
  : option KConnector * error :=
  fst (kafka.Open None queue0 (fun _ => (Some producer0, None)) conf).

Definition memkv_driver : MemDriver :=
  {| driver_name := "memkv"; opens := (Some memkv0, None) |}.

Definition failing_driver : MemDriver :=
  {| driver_name := "memkv"; opens := (None, Some (Errorf "no route")) |}.

(** The tables once both drivers have registered. *)
Definition registry0 : store.Registry MemDriver unit :=
  {| store.dDrivers := {[ "memkv" := memkv_driver ]};
     store.cDrivers := {[ "kafka" := tt ]} |}.

Definition registry_failing : store.Registry MemDriver unit :=
  {| store.dDrivers := {[ "memkv" := failing_driver ]};
     store.cDrivers := {[ "kafka" := tt ]} |}.

(** A connector whose producer takes every message, and a task of it. *)
Definition eager_connector : kafka.Connector MemQueue Eager :=
  {| kafka.producer := Some {| got := [] |}; kafka.log := [];
     kafka.queue := queue0; kafka.writeBuf := [];
     kafka.writeChan := make_chan kafka.MaxMessage;
     kafka.conf := conf0 |}.

Definition eager_task : kafka.Task MemQueue Eager :=
  {| kafka.conn := eager_connector;
     kafka.timer :=
       NewTimer 0 (config.WriteTimeout (config.Connector conf0));
     kafka.now := 0; kafka.offered := [] |}.

Definition k2v2 : store.KeyEntry :=
  {| store.Key := S2B "k2"; store.Entry := S2B "v2" |}.

(** The facade over the backend that fails. *)
Definition facade_broken : store.World Broken KConnector :=
  {| store.this :=
       {| store.db := Some {| failure := Errorf "region unavailable" |};
          store.connector := None; store.conf := conf0 |};
     store.trace := [] |}.

(** [connector0] with two events in its intake. *)
Definition connector_two : KConnector :=
  kafka.set_writeChan
    {| chan_buf := [k1v1; k2v2]; chan_cap := kafka.MaxMessage;
       chan_closed := false |}
    connector0.

End samples.

(** * Properties *)

(** ** The driver registry *)

Section RegistryProperties.

Context {DBDriver ConnectorDriver : Type}.
Variable DBDriver_Name : DBDriver -> string.
Variable ConnectorDriver_Name : ConnectorDriver -> string.

Abbreviation Registry := (store.Registry DBDriver ConnectorDriver).

Lemma RegisterDB_duplicate (driver first : DBDriver) (r : Registry) :
  store.dDrivers r !! DBDriver_Name driver = Some first ->
  store.RegisterDB DBDriver_Name driver r
  = (Panic (store.already_registered (DBDriver_Name driver)), r).
Proof. intros Hin. unfold store.RegisterDB. now rewrite Hin. Qed.

Lemma RegisterConnector_duplicate (driver first : ConnectorDriver)
    (r : Registry) :
  store.cDrivers r !! ConnectorDriver_Name driver = Some first ->
  store.RegisterConnector ConnectorDriver_Name driver r
  = (Panic (store.already_registered (ConnectorDriver_Name driver)), r).
Proof. intros Hin. unfold store.RegisterConnector. now rewrite Hin. Qed.

Lemma RegisterDB_fresh (driver : DBDriver) (r : Registry) :
  store.dDrivers r !! DBDriver_Name driver = None ->
  store.RegisterDB DBDriver_Name driver r
  = (Ret tt,
     {| store.dDrivers := <[DBDriver_Name driver := driver]> (store.dDrivers r);
        store.cDrivers := store.cDrivers r |}).
Proof. intros Hout. unfold store.RegisterDB. now rewrite Hout. Qed.

Lemma RegisterConnector_fresh (driver : ConnectorDriver) (r : Registry) :
  store.cDrivers r !! ConnectorDriver_Name driver = None ->
  store.RegisterConnector ConnectorDriver_Name driver r
  = (Ret tt,
     {| store.dDrivers := store.dDrivers r;
        store.cDrivers :=
          <[ConnectorDriver_Name driver := driver]> (store.cDrivers r) |}).
Proof. intros Hout. unfold store.RegisterConnector. now rewrite Hout. Qed.

Lemma insert_adds_one {V : Type} (name : string) (v : V)
    (m : gmap string V) :
  m !! name = None -> store.adds_one name v m (<[name := v]> m).
Proof.
  intros Hout. repeat split.
  - apply lookup_insert_eq.
  - intros other Hne. apply lookup_insert_ne. congruence.
  - now apply map_size_insert_None.
Qed.

(** C8. Registering a backend driver or a connector driver under a name
    its table already holds panics and leaves both tables as they were,
    so the first registration stays; registering under a fresh name
    returns and adds exactly that entry to that table. *)
Theorem Register_duplicate_is_fatal_fresh_adds_one
    (d : DBDriver) (c : ConnectorDriver) (r : Registry) :
  (forall first, store.dDrivers r !! DBDriver_Name d = Some first ->
     store.RegisterDB DBDriver_Name d r
     = (Panic (store.already_registered (DBDriver_Name d)), r))
  /\ (forall first, store.cDrivers r !! ConnectorDriver_Name c = Some first ->
     store.RegisterConnector ConnectorDriver_Name c r
     = (Panic (store.already_registered (ConnectorDriver_Name c)), r))
  /\ (store.dDrivers r !! DBDriver_Name d = None ->
      exists r',
        store.RegisterDB DBDriver_Name d r = (Ret tt, r')
        /\ store.adds_one (DBDriver_Name d) d (store.dDrivers r)
             (store.dDrivers r')
        /\ store.cDrivers r' = store.cDrivers r)
  /\ (store.cDrivers r !! ConnectorDriver_Name c = None ->
      exists r',
        store.RegisterConnector ConnectorDriver_Name c r = (Ret tt, r')
        /\ store.adds_one (ConnectorDriver_Name c) c (store.cDrivers r)
             (store.cDrivers r')
        /\ store.dDrivers r' = store.dDrivers r).
Proof.
  split; [|split; [|split]].
  - intros first Hin. eapply RegisterDB_duplicate; eassumption.
  - intros first Hin. eapply RegisterConnector_duplicate; eassumption.
  - intros Hout. eexists. split; [now apply RegisterDB_fresh|].
    split; [|reflexivity]. now apply insert_adds_one.
  - intros Hout. eexists. split; [now apply RegisterConnector_fresh|].
    split; [|reflexivity]. now apply insert_adds_one.
Qed.

End RegistryProperties.

(** The kafka driver registers itself in [init]; a second registration of
    it panics, a first one on the empty tables adds it. *)
Lemma Register_duplicate_is_fatal_fresh_adds_one_witness :
  let r0 : store.Registry unit unit :=
    {| store.dDrivers := ∅; store.cDrivers := ∅ |} in
  let r1 : store.Registry unit unit :=
    {| store.dDrivers := ∅; store.cDrivers := {[ "kafka" := tt ]} |} in
  (exists r', store.RegisterConnector kafka.Driver_Name tt r0 = (Ret tt, r')
              /\ store.cDrivers r' !! "kafka" = Some tt)
  /\ store.RegisterConnector kafka.Driver_Name tt r1
     = (Panic "store kafka is already registered", r1).
Proof.
  intros r0 r1.
  destruct (Register_duplicate_is_fatal_fresh_adds_one
              kafka.Driver_Name kafka.Driver_Name tt tt r0)
    as (_ & _ & _ & Hfresh).
  destruct (Register_duplicate_is_fatal_fresh_adds_one
              kafka.Driver_Name kafka.Driver_Name tt tt r1)
    as (_ & Hdup & _ & _).
  split.
  - destruct (Hfresh eq_refl) as (r' & Hrun & (Hin & _) & _).
    exists r'. split; [exact Hrun | exact Hin].
  - apply (Hdup tt). reflexivity.
Defined.

(** ** The retry backoff of the remote producer *)

(** C7. Whatever the attempt counts, the backoff function returns the
    configured maximum backoff; it is the function installed on both the
    metadata and the producer retry policies, and its result equals the
    capped linear value it computes only when that value is the maximum. *)
Theorem backoff_is_always_MaxBackOff (conf : config.Config)
    (retries maxRetries : Z) :
  kafka.backoff conf retries maxRetries
  = config.MaxBackOff (config.Connector conf)
  /\ sarama.Metadata_Retry_BackoffFunc (kafka.producer_config conf)
       retries maxRetries
     = config.MaxBackOff (config.Connector conf)
  /\ sarama.Producer_Retry_BackoffFunc (kafka.producer_config conf)
       retries maxRetries
     = config.MaxBackOff (config.Connector conf)
  /\ (kafka.backoff conf retries maxRetries
      = kafka.backoff_b conf retries maxRetries
      <-> kafka.backoff_b conf retries maxRetries
          = config.MaxBackOff (config.Connector conf)).
Proof.
  repeat split; intros Heq; unfold kafka.backoff in *; congruence.
Qed.

(** With a base of one second and a maximum of ten, the first retry waits
    ten seconds, not the one second the closure computed. *)
Example backoff_first_retry :
  kafka.backoff_b samples.conf0 0 3 = (1000 * Millisecond)%Z
  /\ kafka.backoff samples.conf0 0 3 = (10000 * Millisecond)%Z.
Proof. split; reflexivity. Qed.

(** ** The facade *)

(** Unfolds a method of the facade down to its state-passing form. *)
Ltac run_store :=
  unfold store.Close, store.Health, store.Get, store.CheckAndPut, store.List,
    store.BatchDelete, store.UnsafeDelete, store.log, store.emit,
    store.call_db, store.call_connector, store.deref, store.panic,
    store.self, mbind, store.M_bind, mret, store.M_ret;
  cbn [store.this store.trace store.db store.connector store.conf
       store.is_set fst snd].

Section FacadeProperties.

Context {D C : Type} `{!store.DB D} `{!store.Connector C}.
Variable json_Unmarshal : bytes -> option store.Log -> error * option store.Log.

Abbreviation Store := (store.Store D C).
Abbreviation World := (store.World D C).


Lemma Close_connector_returns (s : Store) (tr : list store.Event) (c : C) :
  store.connector s = Some c ->
  fst (store.conn_Close c) = Ret tt ->
  store.Close {| store.this := s; store.trace := tr |}
  = match store.db s with
    | None =>
        (Ret None,
         {| store.this := {| store.db := None;
                             store.connector := Some (snd (store.conn_Close c));
                             store.conf := store.conf s |};
            store.trace := tr ++ store.closing_connector s |})
    | Some d =>
        (Ret (fst (store.db_Close d)),
         {| store.this := {| store.db := Some (snd (store.db_Close d));
                             store.connector := Some (snd (store.conn_Close c));
                             store.conf := store.conf s |};
            store.trace :=
              tr ++ store.closing_connector s ++ store.closing_db s |})
    end.
Proof.
  intros Hc Hret. destruct s as [d c0 cf]. cbn in Hc. subst c0.
  run_store. destruct (store.conn_Close c) as [o c'].
  cbn in Hret. subst o. cbn.
  destruct d as [d|]; cbn.
  - destruct (store.db_Close d) as [e d']. cbn.
    unfold store.closing_connector, store.closing_db. cbn.
    rewrite <- !app_assoc. reflexivity.
  - unfold store.closing_connector. cbn. rewrite <- !app_assoc. reflexivity.
Qed.



(** C10. While the backend slot is unset, [UnsafeDelete] logs and then
    panics on the nil backend handle, whereas [Get], [List],
    [BatchDelete] and [CheckAndPut] return [ErrNotExists] and [Health]
    returns [ErrDatabaseNotExists], all five without touching the store. *)
Theorem UnsafeDelete_alone_dereferences_unset_backend
    (s : Store) (tr : list store.Event) (key entry start end_ : bytes)
    (limit : Z) (opt : store.Option) (check : store.CheckFunc) :
  store.db s = None ->
  let w := {| store.this := s; store.trace := tr |} in
  store.UnsafeDelete start end_ w
  = (Panic nil_dereference,
     {| store.this := s;
        store.trace :=
          tr ++ [store.EvLog (store.LogUnsafeDelete start end_)] |})
  /\ store.Get key opt w = (Ret (store.NoValue, Some ErrNotExists), w)
  /\ store.List start end_ limit opt w = (Ret ([], Some ErrNotExists), w)
  /\ store.BatchDelete start end_ limit w
     = (Ret ([], 0%Z, Some ErrNotExists), w)
  /\ store.CheckAndPut json_Unmarshal key entry check w
     = (Ret (Some ErrNotExists), w)
  /\ store.Health w = (Ret (Some ErrDatabaseNotExists), w).
Proof.
  intros Hdb w. subst w.
  repeat split; run_store; rewrite Hdb; reflexivity.
Qed.

(** The store after a backend call left the backend in [d']. *)
Lemma Get_run (s : Store) (tr : list store.Event) (key : bytes)
    (opt : store.Option) (d : D) :
  store.db s = Some d ->
  store.Get key opt {| store.this := s; store.trace := tr |}
  = let '(v, err, d') := store.db_Get d key opt in
    let s' := {| store.db := Some d'; store.connector := store.connector s;
                 store.conf := store.conf s |} in
    if store.is_set err && negb (bool_decide (err = Some ErrNotExists))
    then (Ret (store.NoValue, err),
          {| store.this := s';
             store.trace := tr ++ [store.EvDBGet key opt;
                                   store.EvLog (store.LogGetFailed key err)] |})
    else (Ret (v, None),
          {| store.this := s';
             store.trace := tr ++ [store.EvDBGet key opt;
                                   store.EvLog (store.LogGetValue key v)] |}).
Proof.
  intros Hdb. destruct s as [d0 c cf]. cbn in Hdb. subst d0.
  run_store. destruct (store.db_Get d key opt) as [[v err] d']. cbn.
  destruct err as [e|]; cbn.
  - destruct (decide (Some e = Some ErrNotExists)) as [Heq|Hne].
    + rewrite !bool_decide_eq_true_2 by assumption. cbn.
      rewrite <- !app_assoc. reflexivity.
    + rewrite !bool_decide_eq_false_2 by assumption. cbn.
      rewrite <- !app_assoc. reflexivity.
  - rewrite <- !app_assoc. reflexivity.
Qed.

(** C4, as the code has it. With the backend slot unset [Get] returns
    [ErrNotExists] and the empty value. When the backend reports
    [ErrNotExists], [Get] returns no error and the value the backend
    returned with that report, hence the empty value when the backend
    returned the empty one; so it does when the backend reports no error.
    Every other backend error is returned unchanged with the empty value. *)
Theorem Get_hides_not_found_keeps_backend_value
    (s : Store) (tr : list store.Event) (key : bytes) (opt : store.Option) :
  let w := {| store.this := s; store.trace := tr |} in
  (store.db s = None ->
   store.Get key opt w = (Ret (store.NoValue, Some ErrNotExists), w))
  /\ (forall d v err d',
        store.db s = Some d ->
        store.db_Get d key opt = ((v, err), d') ->
        (err = Some ErrNotExists \/ err = None ->
         fst (store.Get key opt w) = Ret (v, None))
        /\ (err = Some ErrNotExists -> v = store.NoValue ->
            fst (store.Get key opt w) = Ret (store.NoValue, None))
        /\ (forall e, err = Some e -> e <> ErrNotExists ->
            fst (store.Get key opt w) = Ret (store.NoValue, Some e))
        /\ store.db (store.this (snd (store.Get key opt w))) = Some d').
Proof.
  intros w. subst w. split.
  - intros Hdb. run_store. rewrite Hdb. reflexivity.
  - intros d v err d' Hdb Hget. rewrite (Get_run _ _ _ _ _ Hdb), Hget.
    repeat split.
    + intros [-> | ->]; reflexivity.
    + intros -> ->. reflexivity.
    + intros e -> Hne. cbn. rewrite bool_decide_eq_false_2 by congruence.
      reflexivity.
    + destruct (store.is_set err && _); reflexivity.
Qed.

(** *** CheckAndPut *)

Section CheckAndPutProperties.

Variables (s : Store) (tr : list store.Event) (d : D).
Variables (key entry : bytes) (check : store.CheckFunc) (l : store.Log).

Hypothesis backend_set : store.db s = Some d.
Hypothesis entry_not_empty : entry <> [].
Hypothesis entry_decodes :
  json_Unmarshal entry
    (Some {| store.Old := EmptyString; store.New := EmptyString |})
  = (None, Some l).

Let w : World := {| store.this := s; store.trace := tr |}.
Let oldVal : bytes := S2B (store.Old l).
Let newVal : bytes := S2B (store.New l).
Let cas : error * D := store.db_CheckAndPut d key oldVal newVal check.
Let msg : store.KeyEntry := {| store.Key := key; store.Entry := entry |}.
Let called : list store.Event :=
  [store.EvLog (store.LogCasOldNew key (store.Old l) (store.New l));
   store.EvDBCheckAndPut key oldVal newVal check].

Lemma len_not_empty : (len entry =? 0)%Z = false.
Proof.
  apply Z.eqb_neq. unfold len. destruct entry; [congruence | cbn; lia].
Qed.

Lemma CheckAndPut_run :
  store.CheckAndPut json_Unmarshal key entry check w
  = let s' := {| store.db := Some (snd cas);
                 store.connector := store.connector s;
                 store.conf := store.conf s |} in
    match fst cas with
    | Some e =>
        (Ret (Some e),
         {| store.this := s';
            store.trace :=
              tr ++ called
              ++ [store.EvLog (store.LogCasFailed key (Some e))] |})
    | None =>
        match store.connector s with
        | None =>
            (Ret None, {| store.this := s'; store.trace := tr ++ called |})
        | Some c =>
            (match fst (store.conn_Send c msg) with
             | Ret _ => Ret None
             | Panic m => Panic m
             | Block => Block
             end,
             {| store.this :=
                  {| store.db := Some (snd cas);
                     store.connector := Some (snd (store.conn_Send c msg));
                     store.conf := store.conf s |};
                store.trace := tr ++ called ++ [store.EvConnSend msg] |})
        end
    end.
Proof.
  subst w cas called msg oldVal newVal.
  destruct s as [d0 c cf]. cbn in backend_set. subst d0.
  run_store. unfold store.notNil. rewrite len_not_empty, entry_decodes.
  cbn. destruct (store.db_CheckAndPut _ _ _ _ _) as [err d'].
  destruct err as [e|]; cbn.
  - rewrite <- !app_assoc. reflexivity.
  - destruct c as [c|]; cbn.
    + destruct (store.conn_Send c _) as [o c']. cbn.
      rewrite <- !app_assoc. destruct o; reflexivity.
    + rewrite <- !app_assoc. reflexivity.
Qed.

End CheckAndPutProperties.


End FacadeProperties.

(** ** The record format of the durable queue *)

Section RecordFormat.

Local Open Scope Z_scope.

Lemma Z_of_byte_of_Z (z : Z) : Z_of_byte (byte_of_Z z) = Z.land z 255.
Proof.
  unfold Z_of_byte, byte_of_Z.
  assert (Hrange : 0 <= Z.land z 255 < 256).
  { change 255 with (Z.ones 8). rewrite Z.land_ones by lia.
    apply Z.mod_pos_bound. lia. }
  destruct (Byte.of_N (Z.to_N (Z.land z 255))) as [b|] eqn:Hb.
  - apply Byte.to_of_N in Hb. rewrite Hb. lia.
  - apply Byte.of_N_None_iff in Hb. lia.
Qed.

Lemma lor_of_bytes (v : Z) :
  0 <= v < 2 ^ 32 ->
  Z.lor (Z.lor (Z.lor (Z.land v 255)
                  (Z.shiftl (Z.land (Z.shiftr v 8) 255) 8))
           (Z.shiftl (Z.land (Z.shiftr v 16) 255) 16))
    (Z.shiftl (Z.land (Z.shiftr v 24) 255) 24) = v.
Proof.
  intros Hv.
  rewrite <- (Z.mod_small v (2 ^ 32)) at 5 by lia.
  rewrite <- Z.land_ones by lia.
  change 255 with (Z.ones 8).
  Z.bitblast.
Qed.

Lemma Uint32_PutUint32 (v : Z) :
  0 <= v < 2 ^ 32 -> Uint32 (PutUint32 v) = Ret v.
Proof.
  intros Hv. unfold Uint32, PutUint32.
  rewrite !Z_of_byte_of_Z. f_equal. now apply lor_of_bytes.
Qed.

Lemma len_PutUint32 (v : Z) : len (PutUint32 v) = 4.
Proof. reflexivity. Qed.

Lemma len_app {A : Type} (a b : list A) : len (a ++ b) = len a + len b.
Proof. unfold len. rewrite length_app. lia. Qed.

Lemma len_nonneg {A : Type} (a : list A) : 0 <= len a.
Proof. unfold len. lia. Qed.

Lemma uint32_small (z : Z) : 0 <= z < 2 ^ 32 -> uint32 z = z.
Proof. intros Hz. unfold uint32. now apply Z.mod_small. Qed.

Lemma uint32_range (z : Z) : 0 <= uint32 z < 2 ^ 32.
Proof. unfold uint32. apply Z.mod_pos_bound. lia. Qed.

Lemma slice_in_range (b : bytes) (lo hi : Z) :
  0 <= lo <= hi -> hi <= len b ->
  slice b lo hi = Ret (firstn (Z.to_nat (hi - lo)) (skipn (Z.to_nat lo) b)).
Proof.
  intros Hlo Hhi. unfold slice.
  replace (0 <=? lo) with true by (symmetry; apply Z.leb_le; lia).
  replace (lo <=? hi) with true by (symmetry; apply Z.leb_le; lia).
  replace (hi <=? len b) with true by (symmetry; apply Z.leb_le; lia).
  reflexivity.
Qed.

Lemma slice_out_of_range_panics (b : bytes) (lo hi : Z) :
  hi < lo \/ len b < hi ->
  slice b lo hi = Panic slice_out_of_range.
Proof.
  intros Hout. unfold slice.
  destruct (0 <=? lo); [|reflexivity]. cbn.
  destruct Hout as [Hout | Hout].
  - replace (lo <=? hi) with false by (symmetry; apply Z.leb_gt; lia).
    reflexivity.
  - replace (hi <=? len b) with false by (symmetry; apply Z.leb_gt; lia).
    now rewrite andb_false_r.
Qed.

(** The three parts of a body made of a header, a key and a value. *)
Lemma slice_header (hdr rest : bytes) :
  slice (hdr ++ rest) 0 (len hdr) = Ret hdr.
Proof.
  rewrite slice_in_range.
  - rewrite Z.sub_0_r. unfold len. rewrite Nat2Z.id.
    change (Z.to_nat 0) with 0%nat. rewrite skipn_O.
    now rewrite firstn_app, Nat.sub_diag, firstn_all, firstn_O, app_nil_r.
  - pose proof (len_nonneg hdr). lia.
  - rewrite len_app. pose proof (len_nonneg rest). lia.
Qed.

Lemma slice_middle (hdr mid rest : bytes) (n : Z) :
  0 <= n <= len mid + len rest ->
  slice (hdr ++ mid ++ rest) (len hdr) (len hdr + n)
  = Ret (firstn (Z.to_nat n) (mid ++ rest)).
Proof.
  intros Hn. rewrite slice_in_range.
  - replace (len hdr + n - len hdr) with n by lia.
    unfold len at 1. rewrite Nat2Z.id.
    now rewrite skipn_app, skipn_all, Nat.sub_diag, skipn_O.
  - pose proof (len_nonneg hdr). lia.
  - rewrite !len_app. lia.
Qed.

Lemma slice_tail (hdr mid rest : bytes) (n : Z) :
  0 <= n <= len mid + len rest ->
  slice (hdr ++ mid ++ rest) (len hdr + n) (len (hdr ++ mid ++ rest))
  = Ret (skipn (Z.to_nat n) (mid ++ rest)).
Proof.
  intros Hn. pose proof (len_nonneg hdr) as Hh. rewrite slice_in_range.
  - f_equal. rewrite firstn_all2.
    + replace (Z.to_nat (len hdr + n)) with (Z.to_nat n + length hdr)%nat
        by (unfold len; lia).
      rewrite <- skipn_skipn.
      now rewrite skipn_app, skipn_all, Nat.sub_diag, skipn_O.
    + rewrite length_skipn. unfold len. lia.
  - rewrite !len_app. lia.
  - lia.
Qed.

(** Decoding what [putQueue] wrote, for every key and entry: the index
    [keyLen+4], reduced as a [uint32], splits key and entry. *)
Lemma decode_encode_split (topic : string) (key entry : bytes) :
  let n := uint32 (uint32 (len key) + 4) - 4 in
  0 <= n <= len key + len entry ->
  kafka.decode topic (kafka.encode {| store.Key := key; store.Entry := entry |})
  = Ret {| sarama.Topic := topic;
           sarama.Key := firstn (Z.to_nat n) (key ++ entry);
           sarama.Value := skipn (Z.to_nat n) (key ++ entry) |}.
Proof.
  intros n Hn. unfold kafka.decode, kafka.encode, kafka.read_keyLen.
  cbn [store.Key store.Entry].
  set (klen := uint32 (len key)) in *.
  pose proof (uint32_range (len key)) as Hk. fold klen in Hk.
  set (hdr := PutUint32 klen).
  change 4 with (len hdr) at 1.
  rewrite slice_header. cbn [obind]. unfold hdr at 1.
  rewrite Uint32_PutUint32 by assumption. cbn [obind].
  unfold kafka.message.
  replace (uint32 (klen + 4)) with (len hdr + n)
    by (change (len hdr) with 4; subst n; lia).
  change 4 with (len hdr) at 1.
  rewrite slice_middle by assumption. cbn [obind].
  rewrite slice_tail by assumption. reflexivity.
Qed.

Lemma decode_encode (topic : string) (key entry : bytes) :
  len key + 4 < 2 ^ 32 ->
  kafka.decode topic (kafka.encode {| store.Key := key; store.Entry := entry |})
  = Ret {| sarama.Topic := topic; sarama.Key := key; sarama.Value := entry |}.
Proof.
  intros Hlen. pose proof (len_nonneg key) as Hk.
  pose proof (len_nonneg entry) as He.
  assert (Hn : uint32 (uint32 (len key) + 4) - 4 = len key).
  { rewrite (uint32_small (len key)) by lia. rewrite uint32_small by lia. lia. }
  rewrite decode_encode_split by (rewrite Hn; lia).
  rewrite Hn. unfold len. rewrite Nat2Z.id.
  rewrite firstn_app, skipn_app, Nat.sub_diag, firstn_all, skipn_all.
  cbn. now rewrite app_nil_r.
Qed.

Lemma Z_of_byte_range (b : byte) : 0 <= Z_of_byte b < 256.
Proof.
  unfold Z_of_byte. pose proof (Byte.to_N_bounded b). lia.
Qed.

Lemma Z_of_byte_land (b : byte) : Z_of_byte b = Z.land (Z_of_byte b) (Z.ones 8).
Proof.
  rewrite Z.land_ones by lia. symmetry. apply Z.mod_small.
  apply Z_of_byte_range.
Qed.

Lemma Uint32_range (b : bytes) (v : Z) : Uint32 b = Ret v -> 0 <= v < 2 ^ 32.
Proof.
  destruct b as [|b0 [|b1 [|b2 [|b3 rest]]]]; try discriminate.
  intros Hv. injection Hv as <-.
  rewrite (Z_of_byte_land b0), (Z_of_byte_land b1), (Z_of_byte_land b2),
    (Z_of_byte_land b3).
  set (x0 := Z_of_byte b0). set (x1 := Z_of_byte b1).
  set (x2 := Z_of_byte b2). set (x3 := Z_of_byte b3).
  assert (Hmask :
    Z.lor (Z.lor (Z.lor (Z.land x3 (Z.ones 8))
                    (Z.shiftl (Z.land x2 (Z.ones 8)) 8))
             (Z.shiftl (Z.land x1 (Z.ones 8)) 16))
      (Z.shiftl (Z.land x0 (Z.ones 8)) 24)
    = Z.land
        (Z.lor (Z.lor (Z.lor (Z.land x3 (Z.ones 8))
                         (Z.shiftl (Z.land x2 (Z.ones 8)) 8))
                  (Z.shiftl (Z.land x1 (Z.ones 8)) 16))
           (Z.shiftl (Z.land x0 (Z.ones 8)) 24))
        (Z.ones 32)) by Z.bitblast.
  rewrite Hmask, Z.land_ones by lia. apply Z.mod_pos_bound. lia.
Qed.

(** With four bytes or more, [keyLen] is what the record declares. *)
Lemma read_keyLen_declared (body : bytes) :
  4 <= len body -> kafka.read_keyLen body = Ret (kafka.declared_keyLen body).
Proof.
  intros Hlen. unfold kafka.read_keyLen, kafka.declared_keyLen.
  destruct body as [|b0 [|b1 [|b2 [|b3 rest]]]];
    try (unfold len in Hlen; cbn in Hlen; lia).
  rewrite slice_in_range by (unfold len in *; cbn [length] in *; lia).
  reflexivity.
Qed.

Lemma read_keyLen_truncated (body : bytes) :
  len body < 4 -> kafka.read_keyLen body = Panic slice_out_of_range.
Proof.
  intros Hlen. unfold kafka.read_keyLen.
  rewrite slice_out_of_range_panics by lia. reflexivity.
Qed.

Lemma declared_keyLen_range (body : bytes) :
  0 <= kafka.declared_keyLen body < 2 ^ 32.
Proof.
  unfold kafka.declared_keyLen.
  destruct (Uint32 body) as [v|m|] eqn:Hv; try lia.
  now apply Uint32_range in Hv.
Qed.

(** A declared key longer than the rest of the record: the first slice,
    [body[4:keyLen+4]], is out of range. *)
Lemma message_key_too_long (topic : string) (body : bytes) :
  len body - 4 < kafka.declared_keyLen body ->
  kafka.message topic body (kafka.declared_keyLen body)
  = Panic slice_out_of_range.
Proof.
  intros Hlong. pose proof (declared_keyLen_range body) as Hk.
  unfold kafka.message. rewrite slice_out_of_range_panics; [reflexivity|].
  unfold uint32.
  destruct (Z_lt_le_dec (kafka.declared_keyLen body + 4) (2 ^ 32)) as [Hs|Hw].
  - right. rewrite Z.mod_small by lia. lia.
  - left.
    replace (kafka.declared_keyLen body + 4)
      with (kafka.declared_keyLen body + 4 - 2 ^ 32 + 1 * 2 ^ 32) by lia.
    rewrite Z.mod_add by lia. rewrite Z.mod_small by lia. lia.
Qed.

(** A well-formed record: key and value are the two parts after the
    header that the declared key length delimits. *)
Lemma message_well_formed (topic : string) (body : bytes) :
  kafka.corrupt body = false ->
  kafka.declared_keyLen body + 4 < 2 ^ 32 ->
  kafka.message topic body (kafka.declared_keyLen body)
  = Ret {| sarama.Topic := topic;
           sarama.Key :=
             firstn (Z.to_nat (kafka.declared_keyLen body)) (skipn 4 body);
           sarama.Value :=
             skipn (Z.to_nat (kafka.declared_keyLen body + 4)) body |}.
Proof.
  intros Hok Hsmall. pose proof (declared_keyLen_range body) as Hk.
  unfold kafka.corrupt in Hok. apply orb_false_iff in Hok as [H4 Hfit].
  apply Z.ltb_ge in H4, Hfit.
  unfold kafka.message. rewrite uint32_small by lia.
  rewrite !slice_in_range by lia. cbn [obind].
  replace (kafka.declared_keyLen body + 4 - 4) with (kafka.declared_keyLen body)
    by lia.
  change (Z.to_nat 4) with 4%nat.
  do 2 f_equal. apply firstn_all2.
  rewrite length_skipn. unfold len. lia.
Qed.

(** Every corrupt record makes the decoding panic. *)
Lemma decode_corrupt (topic : string) (body : bytes) :
  kafka.corrupt body = true ->
  kafka.decode topic body = Panic slice_out_of_range.
Proof.
  intros Hbad. unfold kafka.corrupt in Hbad. unfold kafka.decode.
  destruct (Z.ltb_spec (len body) 4) as [Hshort|Hlong].
  - now rewrite read_keyLen_truncated.
  - cbn in Hbad. apply Z.ltb_lt in Hbad.
    rewrite read_keyLen_declared by assumption. cbn [obind].
    now apply message_key_too_long.
Qed.

End RecordFormat.

(** ** The kafka connector *)

Section ConnectorProperties.

Local Open Scope Z_scope.

Context {Q P : Type} `{!diskqueue.Interface Q} `{!sarama.AsyncProducer P}.

Abbreviation Connector := (kafka.Connector Q P).
Abbreviation Task := (kafka.Task Q P).

(** [putQueue] hands the encoded record to the queue and changes nothing
    else but the write buffer. *)
Lemma putQueue_run (msg : store.KeyEntry) (c : Connector) :
  kafka.putQueue msg c
  = (fst (diskqueue.Put (kafka.queue c) (kafka.encode msg)),
     {| kafka.producer := kafka.producer c; kafka.log := kafka.log c;
        kafka.queue := snd (diskqueue.Put (kafka.queue c) (kafka.encode msg));
        kafka.writeBuf := kafka.encode msg;
        kafka.writeChan := kafka.writeChan c; kafka.conf := kafka.conf c |}).
Proof.
  unfold kafka.putQueue, kafka.encode, kafka.set_writeBuf, kafka.set_queue.
  cbn. destruct (diskqueue.Put _ _) as [err q]. reflexivity.
Qed.

(** The stop, drain and reset of [runQueue] arm the timer for the write
    timeout, whatever state it was in. *)
Lemma rearm_expiry (now wt : Z) (t0 : Timer) :
  expiry (kafka.rearm now wt t0) = Some (now + wt).
Proof. reflexivity. Qed.

Lemma NewTimer_no_stale_tick (now d : Z) : no_stale_tick (NewTimer now d).
Proof. intros Htick. discriminate. Qed.

Lemma rearm_tick (now wt : Z) (t0 : Timer) :
  no_stale_tick t0 -> tick (kafka.rearm now wt t0) = false.
Proof.
  intros Hok. unfold kafka.rearm, Timer_fire, no_stale_tick in *.
  destruct t0 as [[e|] tk]; cbn in *.
  - destruct (e <=? now); cbn; [reflexivity|].
    destruct tk; [discriminate (Hok eq_refl) | reflexivity].
  - reflexivity.
Qed.




Lemma runQueue_msg_put_fails (msg : store.KeyEntry) (t : Task) (e : Err) :
  fst (kafka.putQueue msg (kafka.conn t)) = Some e ->
  kafka.runQueue_msg msg t
  = let c := kafka.Errorf (kafka.LogPutQueueFailed (Some e))
               (snd (kafka.putQueue msg (kafka.conn t))) in
    if negb (config.EnableProducer (kafka.cconf (kafka.conn t))) then
      (Ret tt, {| kafka.conn := c; kafka.timer := kafka.timer t;
                  kafka.now := kafka.now t; kafka.offered := kafka.offered t |})
    else
      let input := kafka.fallback_input (kafka.conn t) msg in
      let tm := kafka.rearm (kafka.now t)
                  (config.WriteTimeout (kafka.cconf (kafka.conn t)))
                  (kafka.timer t) in
      match kafka.producer (kafka.conn t) with
      | None =>
          (Panic nil_dereference,
           {| kafka.conn := c; kafka.timer := tm; kafka.now := kafka.now t;
              kafka.offered := kafka.offered t |})
      | Some p =>
          match kafka.select_input_or_timer p input (kafka.now t) tm with
          | kafka.SentInput d =>
              (Ret tt,
               {| kafka.conn :=
                    kafka.set_producer (Some (sarama.Input_take p input)) c;
                  kafka.timer := tm; kafka.now := kafka.now t + d;
                  kafka.offered := kafka.offered t ++ [input] |})
          | kafka.TimedOut w =>
              (Ret tt,
               {| kafka.conn :=
                    kafka.Errorf (kafka.LogPutKafkaTimeout (store.Key msg)) c;
                  kafka.timer :=
                    Timer_drain (Timer_fire (kafka.now t + w) tm);
                  kafka.now := kafka.now t + w;
                  kafka.offered := kafka.offered t ++ [input] |})
          | kafka.Stuck =>
              (Block,
               {| kafka.conn := c; kafka.timer := tm;
                  kafka.now := kafka.now t;
                  kafka.offered := kafka.offered t ++ [input] |})
          end
      end.
Proof.
  intros Hfail. unfold kafka.runQueue_msg.
  rewrite putQueue_run in *. cbn [fst snd] in *. rewrite Hfail.
  reflexivity.
Qed.

Lemma runQueue_msg_put_succeeds (msg : store.KeyEntry) (t : Task) :
  fst (kafka.putQueue msg (kafka.conn t)) = None ->
  kafka.runQueue_msg msg t
  = (Ret tt, {| kafka.conn := snd (kafka.putQueue msg (kafka.conn t));
                kafka.timer := kafka.timer t; kafka.now := kafka.now t;
                kafka.offered := kafka.offered t |}).
Proof.
  intros Hok. unfold kafka.runQueue_msg.
  rewrite putQueue_run in *. cbn [fst snd] in *. rewrite Hok.
  reflexivity.
Qed.



(** One turn of the loop leaves no stale tick behind, and a timeout of
    the fallback is a wait of the whole write timeout. *)
Lemma runQueue_msg_no_stale_tick (msg : store.KeyEntry) (t : Task) :
  no_stale_tick (kafka.timer t) ->
  no_stale_tick (kafka.timer (snd (kafka.runQueue_msg msg t))).
Proof.
  intros Hok.
  destruct (fst (kafka.putQueue msg (kafka.conn t))) as [e|] eqn:Hput.
  - rewrite (runQueue_msg_put_fails _ _ _ Hput). cbn zeta.
    pose proof (rearm_tick (kafka.now t)
                  (config.WriteTimeout (kafka.cconf (kafka.conn t)))
                  (kafka.timer t) Hok) as Htick.
    set (tm := kafka.rearm _ _ _) in *.
    destruct (negb _); [exact Hok|].
    destruct (kafka.producer (kafka.conn t)) as [p|];
      [destruct (kafka.select_input_or_timer _ _ _ _)|];
      cbn [snd kafka.timer]; unfold no_stale_tick; intros H1;
      try congruence; discriminate H1.
  - rewrite (runQueue_msg_put_succeeds _ _ Hput). exact Hok.
Qed.

Lemma select_timeout_is_full (p : P) (input : sarama.ProducerMessage)
    (now wt w : Z) (t0 : Timer) :
  no_stale_tick t0 ->
  kafka.select_input_or_timer p input now (kafka.rearm now wt t0)
  = kafka.TimedOut w ->
  w = Z.max 0 wt.
Proof.
  intros Hok. unfold kafka.select_input_or_timer, Timer_ready_in.
  rewrite (rearm_tick now wt t0 Hok), rearm_expiry.
  replace (now + wt - now) with wt by lia.
  destruct (sarama.Input_ready_in p input) as [d|].
  - destruct (_ <? _); [discriminate|].
    destruct (_ <? _); [congruence|].
    destruct (sarama.Input_first p); [discriminate | congruence].
  - congruence.
Qed.


(** *** runProducer *)

Lemma runProducer_corrupt (body : bytes) (rest : list kafka.Recv) (t : Task) :
  kafka.corrupt body = true ->
  exists m, kafka.runProducer (kafka.RecvBody body :: rest) t = (Panic m, t).
Proof.
  intros Hbad. cbn [kafka.runProducer]. unfold kafka.runProducer_body.
  unfold kafka.corrupt in Hbad.
  destruct (Z.ltb_spec (len body) 4) as [Hshort|Hlong].
  - rewrite read_keyLen_truncated by assumption. eauto.
  - cbn in Hbad. apply Z.ltb_lt in Hbad.
    rewrite read_keyLen_declared by assumption.
    destruct (kafka.producer (kafka.conn t)); [|eauto].
    rewrite message_key_too_long by assumption. eauto.
Qed.

(** The message a well-formed record is decoded to. *)
Lemma runProducer_well_formed (body : bytes) (rest : list kafka.Recv)
    (t : Task) (p : P) :
  kafka.corrupt body = false ->
  kafka.declared_keyLen body + 4 < 2 ^ 32 ->
  kafka.producer (kafka.conn t) = Some p ->
  let m := kafka.forwarded (kafka.conn t) body in
  kafka.runProducer (kafka.RecvBody body :: rest) t
  = match sarama.Input_ready_in p m with
    | Some d =>
        kafka.runProducer rest
          {| kafka.conn :=
               kafka.set_producer (Some (sarama.Input_take p m)) (kafka.conn t);
             kafka.timer := kafka.timer t;
             kafka.now := kafka.now t + Z.max 0 d;
             kafka.offered := kafka.offered t ++ [m] |}
    | None =>
        (Block, {| kafka.conn := kafka.conn t; kafka.timer := kafka.timer t;
                   kafka.now := kafka.now t;
                   kafka.offered := kafka.offered t ++ [m] |})
    end.
Proof.
  intros Hok Hsmall Hp m. cbn [kafka.runProducer].
  unfold kafka.runProducer_body.
  assert (H4 : 4 <= len body).
  { unfold kafka.corrupt in Hok. apply orb_false_iff in Hok as [H4 _].
    now apply Z.ltb_ge in H4. }
  rewrite read_keyLen_declared by assumption. rewrite Hp.
  rewrite message_well_formed by assumption. fold m.
  destruct (sarama.Input_ready_in p _); reflexivity.
Qed.

(** C6, as the code has it. A record shorter than four bytes, or one
    whose declared key length exceeds what follows the header, makes
    [runProducer] panic at that record: the task stops there in the state
    it had, and whatever the streams hold after it is neither decoded nor
    forwarded. A well-formed record is decoded into its key and value,
    and once the producer takes the message the task goes on with what
    follows. *)
Theorem runProducer_corrupt_record_panics
    (body : bytes) (rest : list kafka.Recv) (t : Task) :
  (kafka.corrupt body = true ->
   exists m, kafka.runProducer (kafka.RecvBody body :: rest) t = (Panic m, t))
  /\ (kafka.corrupt body = false ->
      kafka.declared_keyLen body + 4 < 2 ^ 32 ->
      forall p d,
        kafka.producer (kafka.conn t) = Some p ->
        sarama.Input_ready_in p (kafka.forwarded (kafka.conn t) body)
        = Some d ->
        kafka.runProducer (kafka.RecvBody body :: rest) t
        = kafka.runProducer rest
            {| kafka.conn :=
                 kafka.set_producer
                   (Some (sarama.Input_take p
                            (kafka.forwarded (kafka.conn t) body)))
                   (kafka.conn t);
               kafka.timer := kafka.timer t;
               kafka.now := kafka.now t + Z.max 0 d;
               kafka.offered :=
                 kafka.offered t ++ [kafka.forwarded (kafka.conn t) body] |}).
Proof.
  split.
  - now apply runProducer_corrupt.
  - intros Hok Hsmall p d Hp Hd.
    rewrite (runProducer_well_formed body rest t p Hok Hsmall Hp).
    cbn zeta. rewrite Hd. reflexivity.
Qed.

(** C2, as the code has it. [putQueue] appends to the queue the record
    made of the key length as four big-endian bytes, the key and the
    entry; the length is reduced modulo [2^32]. For a key shorter than
    [2^32 - 4] bytes, decoding the record gives back the key and the
    entry. The entry v1 under the key k1 is written as the bytes
    00 00 00 02 k 1 v 1, which decode to k1 and v1. *)
Theorem putQueue_record_round_trip
    (c : Connector) (topic : string) (key entry : bytes) :
  let msg := {| store.Key := key; store.Entry := entry |} in
  let k1v1 := {| store.Key := S2B "k1"; store.Entry := S2B "v1" |} in
  kafka.putQueue msg c
  = (fst (diskqueue.Put (kafka.queue c) (kafka.encode msg)),
     kafka.set_queue (snd (diskqueue.Put (kafka.queue c) (kafka.encode msg)))
       (kafka.set_writeBuf (kafka.encode msg) c))
  /\ kafka.encode msg = PutUint32 (uint32 (len key)) ++ key ++ entry
  /\ Uint32 (PutUint32 (uint32 (len key))) = Ret (uint32 (len key))
  /\ len (kafka.encode msg) = 4 + len key + len entry
  /\ (len key + 4 < 2 ^ 32 ->
      kafka.decode topic (kafka.encode msg)
      = Ret {| sarama.Topic := topic; sarama.Key := key;
               sarama.Value := entry |})
  /\ kafka.encode k1v1
     = [Byte.x00; Byte.x00; Byte.x00; Byte.x02;
        Byte.x6b; Byte.x31; Byte.x76; Byte.x31]
  /\ kafka.decode topic
       [Byte.x00; Byte.x00; Byte.x00; Byte.x02;
        Byte.x6b; Byte.x31; Byte.x76; Byte.x31]
     = Ret {| sarama.Topic := topic; sarama.Key := S2B "k1";
              sarama.Value := S2B "v1" |}.
Proof.
  intros msg k1v1. split; [apply putQueue_run|]. split; [reflexivity|].
  split; [apply Uint32_PutUint32, uint32_range|]. split.
  { subst msg. unfold kafka.encode. cbn [store.Key store.Entry].
    rewrite !len_app, len_PutUint32. lia. }
  split; [apply decode_encode|]. split; reflexivity.
Qed.

(** *** Send, Close and Open *)

Lemma set_writeChan_same (c : Connector) :
  kafka.set_writeChan (kafka.writeChan c) c = c.
Proof. now destruct c. Qed.

(** [Send] enqueues on an open intake with room, blocks on a full one and
    panics on a closed one. *)
Lemma Send_run (c : Connector) (msg : store.KeyEntry) :
  kafka.Send c msg
  = if chan_closed (kafka.writeChan c)
    then (Panic "send on closed channel", c)
    else if (length (chan_buf (kafka.writeChan c))
             <? chan_cap (kafka.writeChan c))%nat
         then (Ret None,
               kafka.set_writeChan
                 {| chan_buf := chan_buf (kafka.writeChan c) ++ [msg];
                    chan_cap := chan_cap (kafka.writeChan c);
                    chan_closed := false |} c)
         else (Block, c).
Proof.
  unfold kafka.Send, chan_send.
  destruct (chan_closed (kafka.writeChan c)).
  - now rewrite set_writeChan_same.
  - destruct (_ <? _)%nat; [reflexivity|]. now rewrite set_writeChan_same.
Qed.

(** [Close] of a connector whose intake is open returns, and logs what
    the queue and the producer report when they are closed. *)
Lemma Close_run (c : Connector) :
  chan_closed (kafka.writeChan c) = false ->
  (config.EnableProducer (kafka.cconf c) = true -> kafka.producer c <> None) ->
  fst (kafka.Close c) = Ret tt
  /\ chan_closed (kafka.writeChan (snd (kafka.Close c))) = true
  /\ kafka.log (snd (kafka.Close c)) = kafka.log c ++ kafka.close_failures c.
Proof.
  intros Hopen Hready. destruct c as [p lg q wb ch cf].
  unfold kafka.close_failures, kafka.Close, chan_close, kafka.cconf in *.
  cbn in *. rewrite Hopen.
  destruct (diskqueue.Close q) as [qerr q']. cbn.
  destruct (config.EnableProducer (config.Connector cf)) eqn:Hen.
  - destruct p as [p|]; [|now specialize (Hready eq_refl)].
    destruct qerr as [qe|]; cbn; rewrite Hen; cbn;
      destruct (sarama.Close p) as [[pe|] p']; cbn;
      rewrite <- ?app_assoc, ?app_nil_r; repeat split.
  - destruct qerr as [qe|]; cbn; rewrite Hen; cbn;
      rewrite <- ?app_assoc, ?app_nil_r; repeat split.
Qed.


(** A second [Close] panics on the intake it already closed. *)
Lemma Close_twice_panics (c : Connector) :
  chan_closed (kafka.writeChan c) = true ->
  kafka.Close c = (Panic "close of closed channel", c).
Proof.
  intros Hclosed. unfold kafka.Close, chan_close. now rewrite Hclosed.
Qed.

(** The connector [Driver.Open] returns has an open, empty intake of
    [MaxMessage] slots, and its producer when publishing is enabled and
    [sarama.NewAsyncProducer] returned one. *)
Lemma Open_connector (MkdirAll : error) (New : Q)
    (NewAsyncProducer : sarama.Config -> option P * error)
    (conf : config.Config) (c : Connector) (err : error)
    (logged : list kafka.LogLine) :
  kafka.Open MkdirAll New NewAsyncProducer conf = (Some c, err, logged) ->
  kafka.writeChan c = make_chan kafka.MaxMessage
  /\ kafka.conf c = conf
  /\ (config.EnableProducer (config.Connector conf) = true ->
      kafka.producer c = fst (NewAsyncProducer (kafka.producer_config conf))).
Proof.
  unfold kafka.Open. destruct (store.is_set MkdirAll); [discriminate|].
  destruct (config.EnableProducer (config.Connector conf)).
  - destruct (NewAsyncProducer _) as [p perr]. cbn.
    destruct (store.is_set perr); [discriminate|].
    intros Heq. injection Heq as <- <- <-. now repeat split.
  - intros Heq. injection Heq as <- <- <-. repeat split. discriminate.
Qed.

End ConnectorProperties.

(** ** The facade over the kafka connector *)

Section ReplicatedWrites.

Context {D Q P : Type} `{!store.DB D}.
Context `{!diskqueue.Interface Q} `{!sarama.AsyncProducer P}.
Variable json_Unmarshal : bytes -> option store.Log -> error * option store.Log.

(** C3, as the code has it. [CheckAndPut] calls the connector's [Send]
    itself, after the backend accepted the write and before it returns.
    With an open intake that has a free slot the event is enqueued and
    [CheckAndPut] returns nil; with a full intake the call blocks in
    [Send]: the backend holds the new value, the intake is unchanged and
    [CheckAndPut] has not returned. *)
Theorem CheckAndPut_waits_for_the_intake
    (s : store.Store D (kafka.Connector Q P)) (tr : list store.Event) (d : D)
    (c : kafka.Connector Q P)
    (key entry : bytes) (check : store.CheckFunc) (l : store.Log) :
  store.db s = Some d ->
  entry <> [] ->
  json_Unmarshal entry
    (Some {| store.Old := EmptyString; store.New := EmptyString |})
  = (None, Some l) ->
  fst (store.db_CheckAndPut d key (S2B (store.Old l)) (S2B (store.New l)) check)
  = None ->
  store.connector s = Some c ->
  chan_closed (kafka.writeChan c) = false ->
  let w := {| store.this := s; store.trace := tr |} in
  let msg := {| store.Key := key; store.Entry := entry |} in
  let run := store.CheckAndPut json_Unmarshal key entry check w in
  let d' := snd (store.db_CheckAndPut d key (S2B (store.Old l))
                   (S2B (store.New l)) check) in
  store.db (store.this (snd run)) = Some d'
  /\ (length (chan_buf (kafka.writeChan c)) < chan_cap (kafka.writeChan c) ->
      fst run = Ret None
      /\ store.connector (store.this (snd run))
         = Some (kafka.set_writeChan
                   {| chan_buf := chan_buf (kafka.writeChan c) ++ [msg];
                      chan_cap := chan_cap (kafka.writeChan c);
                      chan_closed := false |} c))
  /\ (chan_cap (kafka.writeChan c) <= length (chan_buf (kafka.writeChan c)) ->
      fst run = Block
      /\ store.connector (store.this (snd run)) = Some c).
Proof.
  intros Hdb Hne Hjson Hcas Hconn Hopen w msg run d'.
  subst run w.
  rewrite (CheckAndPut_run json_Unmarshal s tr d key entry check l
             Hdb Hne Hjson).
  cbn zeta. rewrite Hcas, Hconn. cbn [fst snd store.this store.db
                                       store.connector].
  change (store.conn_Send c) with (kafka.Send c).
  rewrite Send_run, Hopen. fold msg.
  split; [reflexivity|]. split.
  - intros Hroom. apply Nat.ltb_lt in Hroom. rewrite Hroom. now split.
  - intros Hfull. apply Nat.ltb_ge in Hfull. rewrite Hfull. now split.
Qed.

End ReplicatedWrites.


(** ** The properties on the sample implementations *)

Section Scenarios.

Import samples.


(** With a free slot in the intake the write returns and the event is
    queued behind what the intake held. *)
Lemma CheckAndPut_waits_for_the_intake_witness :
  let run := store.CheckAndPut Unmarshal u1 entry_a_b check_equal
               (facade (Some connector0)) in
  fst run = Ret None
  /\ store.connector (store.this (snd run))
     = Some (kafka.set_writeChan
               {| chan_buf := [{| store.Key := u1; store.Entry := entry_a_b |}];
                  chan_cap := kafka.MaxMessage; chan_closed := false |}
               connector0).
Proof.
  assert (Hne : entry_a_b <> []) by discriminate.
  assert (Hjson :
    Unmarshal entry_a_b
      (Some {| store.Old := EmptyString; store.New := EmptyString |})
    = (None, Some {| store.Old := "a"; store.New := "b" |}))
    by (vm_compute; reflexivity).
  assert (Hcas :
    fst (store.db_CheckAndPut memkv0 u1 (S2B "a") (S2B "b") check_equal)
    = None) by (vm_compute; reflexivity).
  destruct (CheckAndPut_waits_for_the_intake Unmarshal
              (store.this (facade (Some connector0))) [] memkv0 connector0
              u1 entry_a_b check_equal _ eq_refl Hne Hjson Hcas
              eq_refl eq_refl)
    as (_ & Hroom & _).
  apply Hroom. cbn. unfold kafka.MaxMessage. lia.
Defined.

(** With the intake at its capacity of 1024 events the backend takes the
    write, and [CheckAndPut] blocks instead of returning nil. *)
Lemma CheckAndPut_full_intake_counterexample :
  let run := store.CheckAndPut Unmarshal u1 entry_a_b check_equal
               (facade (Some connector_full)) in
  fst (store.db_CheckAndPut memkv0 u1 (S2B "a") (S2B "b") check_equal) = None
  /\ store.db (store.this (snd run)) = Some (put u1 (S2B "b") memkv0)
  /\ fst run = Block
  /\ fst run <> Ret None.
Proof.
  assert (Hrun :
    fst (store.CheckAndPut Unmarshal u1 entry_a_b check_equal
           (facade (Some connector_full))) = Block)
    by (vm_compute; reflexivity).
  cbv zeta. rewrite Hrun.
  split; [vm_compute; reflexivity|]. split; [vm_compute; reflexivity|].
  split; [reflexivity | discriminate].
Qed.

(** A key that is not stored: the in-memory backend reports not-found
    with the empty value, and [Get] returns the empty value and nil. *)
Lemma Get_hides_not_found_keeps_backend_value_witness :
  fst (store.Get (S2B "u2") store.NoOption (facade None))
  = Ret (store.NoValue, None).
Proof.
  destruct (Get_hides_not_found_keeps_backend_value
              (store.this (facade None)) [] (S2B "u2") store.NoOption)
    as (_ & Hset).
  destruct (Hset memkv0 store.NoValue (Some ErrNotExists) memkv0
              eq_refl eq_refl) as (_ & Hempty & _).
  apply Hempty; reflexivity.
Defined.

(** The backend reports not-found and the last value of the key: [Get]
    returns that value, not the empty one. *)
Lemma Get_not_found_value_counterexample :
  let d := {| last_value := S2B "a" |} in
  snd (fst (store.db_Get d u1 store.NoOption)) = Some ErrNotExists
  /\ fst (store.Get u1 store.NoOption facade_secondary)
     = Ret ({| store.Secondary := true; store.Val := S2B "a" |}, None)
  /\ fst (store.Get u1 store.NoOption facade_secondary)
     <> Ret (store.NoValue, None).
Proof.
  assert (Hrun :
    fst (store.Get u1 store.NoOption facade_secondary)
    = Ret ({| store.Secondary := true; store.Val := S2B "a" |}, None))
    by (vm_compute; reflexivity).
  cbv zeta. rewrite Hrun.
  split; [reflexivity|]. split; [reflexivity | discriminate].
Qed.


(** A truncated record stops the task; the record k1, v1 is forwarded
    once the producer takes it. *)
Lemma runProducer_corrupt_record_panics_witness :
  (exists m,
     kafka.runProducer
       [kafka.RecvBody truncated; kafka.RecvBody (kafka.encode k1v1)] task0
     = (Panic m, task0))
  /\ kafka.offered
       (snd (kafka.runProducer
               [kafka.RecvBody (kafka.encode k1v1); kafka.RecvClosed] task0))
     = [{| sarama.Topic := "tikv"; sarama.Key := S2B "k1";
           sarama.Value := S2B "v1" |}].
Proof.
  split.
  - destruct (runProducer_corrupt_record_panics truncated
                [kafka.RecvBody (kafka.encode k1v1)] task0) as (Hbad & _).
    apply Hbad. reflexivity.
  - destruct (runProducer_corrupt_record_panics (kafka.encode k1v1)
                [kafka.RecvClosed] task0) as (_ & Hgood).
    rewrite (Hgood eq_refl eq_refl producer0 0%Z eq_refl eq_refl).
    reflexivity.
Defined.

(** After a truncated record, and after one that declares more key bytes
    than it holds, the record k1, v1 behind it is never forwarded, though
    it is forwarded when it comes alone. *)
Lemma runProducer_corrupt_record_counterexample :
  let good := kafka.RecvBody (kafka.encode k1v1) in
  let alone := kafka.runProducer [good; kafka.RecvClosed] task0 in
  let after_truncated :=
    kafka.runProducer [kafka.RecvBody truncated; good; kafka.RecvClosed]
      task0 in
  let after_overlong :=
    kafka.runProducer [kafka.RecvBody overlong; good; kafka.RecvClosed]
      task0 in
  kafka.corrupt truncated = true
  /\ kafka.corrupt overlong = true
  /\ kafka.corrupt (kafka.encode k1v1) = false
  /\ fst alone = Ret tt
  /\ kafka.offered (snd alone)
     = [{| sarama.Topic := "tikv"; sarama.Key := S2B "k1";
           sarama.Value := S2B "v1" |}]
  /\ fst after_truncated = Panic slice_out_of_range
  /\ kafka.offered (snd after_truncated) = []
  /\ fst after_overlong = Panic slice_out_of_range
  /\ kafka.offered (snd after_overlong) = [].
Proof. cbv zeta. repeat split; vm_compute; reflexivity. Qed.

(** The record of k1 and v1 decodes to k1 and v1. *)
Lemma putQueue_record_round_trip_witness :
  kafka.decode "tikv" (kafka.encode k1v1)
  = Ret {| sarama.Topic := "tikv"; sarama.Key := S2B "k1";
           sarama.Value := S2B "v1" |}.
Proof.
  destruct (putQueue_record_round_trip connector0 "tikv" (S2B "k1") (S2B "v1"))
    as (_ & _ & _ & _ & Hround & _).
  apply Hround. reflexivity.
Defined.

(** A key of [2^32] bytes is declared with length zero: the record
    decodes to the empty key and to a value that begins with the key. *)
Lemma putQueue_record_long_key_counterexample :
  let msg := {| store.Key := long_key; store.Entry := [] |} in
  kafka.decode "tikv" (kafka.encode msg)
  = Ret {| sarama.Topic := "tikv"; sarama.Key := [];
           sarama.Value := long_key |}
  /\ kafka.decode "tikv" (kafka.encode msg)
     <> Ret {| sarama.Topic := "tikv"; sarama.Key := long_key;
               sarama.Value := [] |}.
Proof.
  assert (Hlen : len long_key = 4294967296%Z).
  { unfold long_key, len. rewrite repeat_length. lia. }
  generalize dependent long_key. intros key Hlen. cbv zeta.
  assert (Hn : (uint32 (uint32 (len key) + 4) - 4 = 0)%Z)
    by (rewrite Hlen; reflexivity).
  assert (Hdec :
    kafka.decode "tikv"
      (kafka.encode {| store.Key := key; store.Entry := [] |})
    = Ret {| sarama.Topic := "tikv"; sarama.Key := [];
             sarama.Value := key |}).
  { rewrite decode_encode_split by (rewrite Hn, Hlen; unfold len; cbn; lia).
    rewrite Hn. change (Z.to_nat 0) with 0%nat.
    rewrite firstn_O, skipn_O, app_nil_r. reflexivity. }
  split; [exact Hdec|]. rewrite Hdec. intros Heq.
  injection Heq as Hkey _. apply (f_equal len) in Hkey.
  rewrite Hlen in Hkey. discriminate Hkey.
Qed.


(** Before the backend is opened, [UnsafeDelete] panics and the other
    operations report that the backend is not there. *)
Lemma UnsafeDelete_alone_dereferences_unset_backend_witness :
  fst (store.UnsafeDelete (S2B "a") (S2B "z") facade_unopened)
  = Panic nil_dereference
  /\ fst (store.Get u1 store.NoOption facade_unopened)
     = Ret (store.NoValue, Some ErrNotExists)
  /\ fst (store.Health facade_unopened) = Ret (Some ErrDatabaseNotExists).
Proof.
  destruct (UnsafeDelete_alone_dereferences_unset_backend Unmarshal
              (store.this facade_unopened) [] u1 entry_a_b
              (S2B "a") (S2B "z") 10%Z store.NoOption check_equal eq_refl)
    as (Hdel & Hget & _ & _ & _ & Hhealth).
  change {| store.this := store.this facade_unopened; store.trace := [] |}
    with facade_unopened in *.
  rewrite Hdel, Hget, Hhealth. repeat split.
Defined.

End Scenarios.

(** ** More on the facade: construction, opening, the other operations *)

Section FacadeConstruction.

Context {D C DBDriver ConnectorDriver : Type}.
Variable DBDriver_Name : DBDriver -> string.
Variable ConnectorDriver_Name : ConnectorDriver -> string.
Variable DBDriver_Open : DBDriver -> config.Config -> option D * error.
Variable ConnectorDriver_Open
  : ConnectorDriver -> config.Config -> option C * error.

Abbreviation Registry' := (store.Registry DBDriver ConnectorDriver).
Abbreviation unopened conf :=
  ({| store.db := None; store.connector := None; store.conf := conf |}
   : store.Store D C).

(** X1. [NewStore] returns a store, with both slots unset, exactly when
    the connector name and the backend name of the configuration are
    registered, and [ErrNotRegister] without a store otherwise; after a
    backend driver and a connector driver were registered under fresh
    names, [NewStore] on a configuration naming them succeeds. *)
Theorem NewStore_needs_both_drivers (r : Registry') (conf : config.Config) :
  let cname := config.Name (config.Connector conf) in
  let dname := config.StoreName (config.Store conf) in
  (is_Some (store.cDrivers r !! cname) -> is_Some (store.dDrivers r !! dname) ->
   store.NewStore r conf = (Some (unopened conf), None))
  /\ (store.cDrivers r !! cname = None \/ store.dDrivers r !! dname = None ->
      @store.NewStore _ _ D C r conf = (None, Some ErrNotRegister))
  /\ (forall d c,
        store.dDrivers r !! DBDriver_Name d = None ->
        store.cDrivers r !! ConnectorDriver_Name c = None ->
        dname = DBDriver_Name d ->
        cname = ConnectorDriver_Name c ->
        exists r1 r2,
          store.RegisterDB DBDriver_Name d r = (Ret tt, r1)
          /\ store.RegisterConnector ConnectorDriver_Name c r1 = (Ret tt, r2)
          /\ store.NewStore r2 conf = (Some (unopened conf), None)).
Proof.
  intros cname dname. unfold store.NewStore. fold cname dname.
  split; [|split].
  - intros [c Hc] [d Hd]. now rewrite Hc, Hd.
  - intros [Hc | Hd].
    + now rewrite Hc.
    + rewrite Hd. now destruct (store.cDrivers r !! cname).
  - intros d c Hd Hc Hdn Hcn.
    rewrite (RegisterDB_fresh DBDriver_Name d r Hd).
    eexists. eexists. split; [reflexivity|].
    rewrite RegisterConnector_fresh by exact Hc. split; [reflexivity|].
    cbn. rewrite Hcn, Hdn, !lookup_insert_eq. reflexivity.
Qed.

(** X2. With both drivers registered, [Open] returns whatever the order
    in which its two tasks run, and leaves the same store: each slot
    holds what its driver returned when the driver reported no error,
    and is left as it was, with one line logged, when the driver
    failed. After a failed backend open on an unopened store [Health]
    reports [ErrDatabaseNotExists] and [Get] reports [ErrNotExists],
    whether the connector opened or not. *)
Theorem Open_fills_slots_in_any_order
    `{!store.DB D} `{!store.Connector C}
    (r : Registry') (s : store.Store D C)
    (dDriver : DBDriver) (cDriver : ConnectorDriver) :
  store.dDrivers r !! config.StoreName (config.Store (store.conf s))
  = Some dDriver ->
  store.cDrivers r !! config.Name (config.Connector (store.conf s))
  = Some cDriver ->
  let dres := DBDriver_Open dDriver (store.conf s) in
  let cres := ConnectorDriver_Open cDriver (store.conf s) in
  let s' := {| store.db := if store.is_set (snd dres) then store.db s
                           else fst dres;
               store.connector := if store.is_set (snd cres)
                                  then store.connector s else fst cres;
               store.conf := store.conf s |} in
  let dlog := if store.is_set (snd dres)
              then [store.LogOpenDBFailed
                      (config.StoreName (config.Store (store.conf s)))
                      (snd dres)]
              else [] in
  let clog := if store.is_set (snd cres)
              then [store.LogOpenConnectorFailed
                      (config.Name (config.Connector (store.conf s)))
                      (snd cres)]
              else [] in
  store.Open DBDriver_Open ConnectorDriver_Open true r s
  = (Ret (clog ++ dlog), s')
  /\ store.Open DBDriver_Open ConnectorDriver_Open false r s
     = (Ret (dlog ++ clog), s')
  /\ (store.is_set (snd dres) = true -> store.db s = None ->
      forall tr key opt,
        fst (store.Health {| store.this := s'; store.trace := tr |})
        = Ret (Some ErrDatabaseNotExists)
        /\ fst (store.Get key opt {| store.this := s'; store.trace := tr |})
           = Ret (store.NoValue, Some ErrNotExists)).
Proof.
  intros Hd Hc dres cres s' dlog clog. subst s' dlog clog dres cres.
  unfold store.Open, store.open_db, store.open_connector.
  destruct s as [d0 c0 cf]. cbn [store.conf store.db store.connector] in *.
  rewrite Hd, Hc. cbn [store.conf store.db store.connector].
  rewrite ?Hd, ?Hc.
  destruct (DBDriver_Open dDriver cf) as [dh derr] eqn:HD.
  destruct (ConnectorDriver_Open cDriver cf) as [ch cerr] eqn:HC.
  cbn [fst snd].
  destruct (store.is_set derr) eqn:Hde, (store.is_set cerr) eqn:Hce;
    cbn [store.conf store.db store.connector];
    rewrite ?Hd, ?Hc, ?HD, ?HC, ?Hde, ?Hce;
    cbn [app]; (split; [reflexivity|]); (split; [reflexivity|]);
    intros Hfail Hnone; try discriminate; intros tr key opt;
    cbn in Hnone; subst d0; split; reflexivity.
Qed.

(** X3. A store that [NewStore] returned can be opened: neither task of
    [Open] meets a missing driver, so [Open] returns, in either order. *)
Theorem NewStore_then_Open_returns
    (r : Registry') (conf : config.Config) (s : store.Store D C)
    (connector_first : bool) :
  store.NewStore r conf = (Some s, None) ->
  exists logged s',
    store.Open DBDriver_Open ConnectorDriver_Open connector_first r s
    = (Ret logged, s')
    /\ store.conf s' = conf.
Proof.
  unfold store.NewStore.
  destruct (store.cDrivers r !! _) as [cDriver|] eqn:Hc; [|discriminate].
  destruct (store.dDrivers r !! _) as [dDriver|] eqn:Hd; [|discriminate].
  intros Hs. injection Hs as <-.
  destruct (DBDriver_Open dDriver conf) as [dh derr] eqn:HD.
  destruct (ConnectorDriver_Open cDriver conf) as [ch cerr] eqn:HC.
  unfold store.Open, store.open_db, store.open_connector.
  destruct connector_first, (store.is_set derr) eqn:Hde,
    (store.is_set cerr) eqn:Hce;
    repeat (cbn [store.conf store.db store.connector];
            rewrite ?Hc, ?Hd, ?HD, ?HC, ?Hde, ?Hce);
    eexists; eexists; (split; [reflexivity|]); reflexivity.
Qed.

End FacadeConstruction.

Lemma len_eqb_0 {A : Type} (b : list A) : b <> [] -> (len b =? 0)%Z = false.
Proof.
  intros Hne. apply Z.eqb_neq. unfold len.
  destruct b; [contradiction | cbn; lia].
Qed.

Section FacadeOperations.

Context {D C : Type} `{!store.DB D} `{!store.Connector C}.
Variable json_Unmarshal : bytes -> option store.Log -> error * option store.Log.

Notation "s 'with_db' d" :=
  {| store.db := Some d; store.connector := store.connector s;
     store.conf := store.conf s |} (at level 10, only parsing).

(** X4. With the backend set, an empty entry makes [CheckAndPut] return
    [ErrNotExists], and an entry the decoder rejects makes it return the
    decoder's error; in both cases one line is logged and neither the
    backend nor the connector is called or changed. *)
Theorem CheckAndPut_bad_entry_stops_before_backend
    (s : store.Store D C) (tr : list store.Event) (d : D)
    (key entry : bytes) (check : store.CheckFunc) :
  store.db s = Some d ->
  let w := {| store.this := s; store.trace := tr |} in
  (entry = [] ->
   store.CheckAndPut json_Unmarshal key entry check w
   = (Ret (Some ErrNotExists),
      {| store.this := s;
         store.trace := tr ++ [store.EvLog (store.LogCasNeedBody key)] |}))
  /\ (forall e l,
        entry <> [] ->
        json_Unmarshal entry
          (Some {| store.Old := EmptyString; store.New := EmptyString |})
        = (Some e, l) ->
        store.CheckAndPut json_Unmarshal key entry check w
        = (Ret (Some e),
           {| store.this := s;
              store.trace :=
                tr ++ [store.EvLog (store.LogCasInvalid key (Some e))] |})).
Proof.
  intros Hdb w. subst w. split.
  - intros ->. run_store. rewrite Hdb. reflexivity.
  - intros e l Hne Hjson. run_store. rewrite Hdb. cbn.
    rewrite (len_eqb_0 entry Hne), Hjson. reflexivity.
Qed.

(** X5. [CheckAndPut] hands the decoder the address of its [*Log]. When
    the decoder reports no error and leaves that pointer nil,
    [CheckAndPut] panics on the nil pointer before it calls the backend,
    and the store is as it was. *)
Theorem CheckAndPut_nil_Log_panics
    (s : store.Store D C) (tr : list store.Event) (d : D)
    (key entry : bytes) (check : store.CheckFunc) :
  store.db s = Some d ->
  entry <> [] ->
  json_Unmarshal entry
    (Some {| store.Old := EmptyString; store.New := EmptyString |})
  = (None, None) ->
  store.CheckAndPut json_Unmarshal key entry check
    {| store.this := s; store.trace := tr |}
  = (Panic nil_dereference, {| store.this := s; store.trace := tr |}).
Proof.
  intros Hdb Hne Hjson. run_store. rewrite Hdb. cbn.
  rewrite (len_eqb_0 entry Hne), Hjson. reflexivity.
Qed.

(** X6. With the backend set, [List] calls the backend once and returns
    its error unchanged; it returns the backend's rows when there is no
    error and no row at all when there is one. *)
Theorem List_returns_rows_or_error
    (s : store.Store D C) (tr : list store.Event) (d : D)
    (start end_ : bytes) (limit : Z) (opt : store.Option) :
  store.db s = Some d ->
  let w := {| store.this := s; store.trace := tr |} in
  let res := fst (fst (store.db_List d start end_ limit opt)) in
  let err := snd (fst (store.db_List d start end_ limit opt)) in
  let d' := snd (store.db_List d start end_ limit opt) in
  fst (store.List start end_ limit opt w)
  = Ret (if store.is_set err then [] else res, err)
  /\ store.this (snd (store.List start end_ limit opt w)) = s with_db d'
  /\ List.filter store.is_db_event
       (store.trace (snd (store.List start end_ limit opt w)))
     = List.filter store.is_db_event tr
       ++ [store.EvDBList start end_ limit opt].
Proof.
  intros Hdb w res err d'. subst w res err d'.
  destruct s as [d0 c cf]. cbn in Hdb. subst d0. run_store.
  destruct (store.db_List d start end_ limit opt) as [[res err] d'].
  destruct err as [e|]; cbn; rewrite !List.filter_app; cbn;
    rewrite ?app_nil_r; repeat split.
Qed.

(** X7. With the backend set, [BatchDelete] calls the backend once and
    returns the backend's resume key, count and error as they are, also
    when the backend reports an error. *)
Theorem BatchDelete_returns_backend_progress
    (s : store.Store D C) (tr : list store.Event) (d : D)
    (start end_ : bytes) (limit : Z) :
  store.db s = Some d ->
  let w := {| store.this := s; store.trace := tr |} in
  fst (store.BatchDelete start end_ limit w)
  = Ret (fst (store.db_BatchDelete d start end_ limit))
  /\ store.this (snd (store.BatchDelete start end_ limit w))
     = s with_db (snd (store.db_BatchDelete d start end_ limit))
  /\ List.filter store.is_db_event
       (store.trace (snd (store.BatchDelete start end_ limit w)))
     = List.filter store.is_db_event tr
       ++ [store.EvDBBatchDelete start end_ limit].
Proof.
  intros Hdb w. subst w.
  destruct s as [d0 c cf]. cbn in Hdb. subst d0. run_store.
  destruct (store.db_BatchDelete d start end_ limit)
    as [[[lastKey deleted] err] d'].
  destruct err as [e|]; cbn; rewrite !List.filter_app; cbn;
    rewrite ?app_nil_r; repeat split.
Qed.

(** X8. With the backend set, [UnsafeDelete] calls the backend once and
    returns, whatever the backend reports: a backend error only adds a
    line to the log. *)
Theorem UnsafeDelete_swallows_backend_error
    (s : store.Store D C) (tr : list store.Event) (d : D)
    (start end_ : bytes) :
  store.db s = Some d ->
  let w := {| store.this := s; store.trace := tr |} in
  let err := fst (store.db_UnsafeDelete d start end_) in
  store.UnsafeDelete start end_ w
  = (Ret tt,
     {| store.this := s with_db (snd (store.db_UnsafeDelete d start end_));
        store.trace :=
          tr ++ [store.EvLog (store.LogUnsafeDelete start end_);
                 store.EvDBUnsafeDelete start end_]
             ++ (if store.is_set err
                 then [store.EvLog
                         (store.LogUnsafeDeleteFailed start end_ err)]
                 else []) |}).
Proof.
  intros Hdb w err. subst w err.
  destruct s as [d0 c cf]. cbn in Hdb. subst d0. run_store.
  destruct (store.db_UnsafeDelete d start end_) as [err d'].
  destruct err as [e|]; cbn; rewrite <- ?app_assoc; cbn;
    rewrite ?app_nil_r; reflexivity.
Qed.

(** X9. [Get], [List], [BatchDelete], [UnsafeDelete] and [Health] never
    call the connector: whatever the store, they leave the connector
    slot and the configuration as they were and add no connector call to
    the trace; [Health] changes nothing at all. *)
Theorem reads_and_deletes_leave_the_connector_alone
    (w : store.World D C) (key start end_ : bytes) (limit : Z)
    (opt : store.Option) :
  let untouched (w' : store.World D C) :=
    store.connector (store.this w') = store.connector (store.this w)
    /\ store.conf (store.this w') = store.conf (store.this w)
    /\ List.filter store.is_connector_event (store.trace w')
       = List.filter store.is_connector_event (store.trace w) in
  untouched (snd (store.Get key opt w))
  /\ untouched (snd (store.List start end_ limit opt w))
  /\ untouched (snd (store.BatchDelete start end_ limit w))
  /\ untouched (snd (store.UnsafeDelete start end_ w))
  /\ snd (store.Health w) = w.
Proof.
  intros untouched. subst untouched. destruct w as [[d c cf] tr].
  split; [|split; [|split; [|split]]].
  - run_store. destruct d as [d|]; cbn; [|now repeat split].
    destruct (store.db_Get d key opt) as [[v err] d']. cbn.
    destruct (store.is_set err && _); cbn; rewrite !List.filter_app; cbn;
      rewrite !app_nil_r; now repeat split.
  - run_store. destruct d as [d|]; cbn; [|now repeat split].
    destruct (store.db_List d start end_ limit opt) as [[res err] d']. cbn.
    destruct (store.is_set err); cbn; rewrite !List.filter_app; cbn;
      rewrite !app_nil_r; now repeat split.
  - run_store. destruct d as [d|]; cbn; [|now repeat split].
    destruct (store.db_BatchDelete d start end_ limit)
      as [[[lastKey deleted] err] d']. cbn.
    destruct (store.is_set err); cbn; rewrite !List.filter_app; cbn;
      rewrite !app_nil_r; now repeat split.
  - run_store. destruct d as [d|]; cbn.
    + destruct (store.db_UnsafeDelete d start end_) as [err d']. cbn.
      destruct (store.is_set err); cbn; rewrite !List.filter_app; cbn;
        rewrite !app_nil_r; now repeat split.
    + rewrite !List.filter_app; cbn. rewrite !app_nil_r. now repeat split.
  - run_store. now destruct d.
Qed.

End FacadeOperations.

(** ** More on the connector: the intake, the two tasks, shutdown *)

Section ConnectorPipeline.

Local Open Scope Z_scope.

Context {Q P : Type} `{!diskqueue.Interface Q} `{!sarama.AsyncProducer P}.

Abbreviation Connector' := (kafka.Connector Q P).
Abbreviation Task' := (kafka.Task Q P).

(** The intake of [c] with [more] behind what it holds. *)
Abbreviation enqueued more c :=
  (kafka.set_writeChan
     {| chan_buf := chan_buf (kafka.writeChan c) ++ more;
        chan_cap := chan_cap (kafka.writeChan c);
        chan_closed := false |} c).

Lemma enqueued_nil (c : Connector') :
  chan_closed (kafka.writeChan c) = false -> enqueued [] c = c.
Proof.
  intros Hopen. destruct c as [p lg q wb [buf cap closed] cf].
  cbn in *. subst closed. unfold kafka.set_writeChan. cbn.
  now rewrite app_nil_r.
Qed.

Lemma Send_all_run (msgs : list store.KeyEntry) (c : Connector') :
  chan_closed (kafka.writeChan c) = false ->
  let free := (chan_cap (kafka.writeChan c)
               - length (chan_buf (kafka.writeChan c)))%nat in
  kafka.Send_all msgs c
  = (if (length msgs <=? free)%nat then Ret tt else Block,
     enqueued (firstn free msgs) c).
Proof.
  revert c. induction msgs as [|msg rest IH]; intros c Hopen free.
  - cbn. rewrite firstn_nil. now rewrite enqueued_nil.
  - subst free. cbn [kafka.Send_all]. rewrite Send_run, Hopen.
    destruct (Nat.ltb_spec (length (chan_buf (kafka.writeChan c)))
                (chan_cap (kafka.writeChan c))) as [Hroom|Hfull].
    + rewrite IH by reflexivity. cbn [kafka.set_writeChan kafka.writeChan
                                       chan_buf chan_cap].
      rewrite length_app. cbn [length].
      remember (chan_cap (kafka.writeChan c)
                - length (chan_buf (kafka.writeChan c)))%nat as free
        eqn:Hfree.
      destruct free as [|k]; [lia|].
      replace (chan_cap (kafka.writeChan c)
               - (length (chan_buf (kafka.writeChan c)) + 1))%nat with k
        by lia.
      cbn [firstn length]. rewrite <- app_assoc. cbn [app].
      destruct c; reflexivity.
    + replace (chan_cap (kafka.writeChan c)
               - length (chan_buf (kafka.writeChan c)))%nat with 0%nat
        by lia.
      cbn. now rewrite enqueued_nil.
Qed.

(** X10. On an open intake, successive calls of [Send] fill the free
    slots in the order of the calls and lose nothing: when the events
    fit, every call returns and the intake holds them behind what it
    held; when they do not, the call that finds the intake full blocks,
    with exactly the events before it enqueued. *)
Theorem Send_all_fills_free_slots_in_order
    (msgs : list store.KeyEntry) (c : Connector') :
  chan_closed (kafka.writeChan c) = false ->
  let buf := chan_buf (kafka.writeChan c) in
  let cap := chan_cap (kafka.writeChan c) in
  ((length buf + length msgs <= cap)%nat ->
   kafka.Send_all msgs c = (Ret tt, enqueued msgs c))
  /\ ((length buf <= cap < length buf + length msgs)%nat ->
      kafka.Send_all msgs c
      = (Block, enqueued (firstn (cap - length buf) msgs) c)).
Proof.
  intros Hopen buf cap. rewrite (Send_all_run msgs c Hopen). cbn zeta.
  subst buf cap. split; intros Hlen.
  - destruct (Nat.leb_spec (length msgs)
                (chan_cap (kafka.writeChan c)
                 - length (chan_buf (kafka.writeChan c)))); [|lia].
    rewrite firstn_all2 by lia. reflexivity.
  - destruct (Nat.leb_spec (length msgs)
                (chan_cap (kafka.writeChan c)
                 - length (chan_buf (kafka.writeChan c)))); [lia|].
    reflexivity.
Qed.



(** *** The intake task when the queue accepts *)

Lemma runQueue_loop_accepted (buf : list store.KeyEntry) (t : Task') :
  kafka.accepts_all (map kafka.encode buf) (kafka.queue (kafka.conn t))
  = true ->
  let t' := snd (kafka.runQueue_loop buf t) in
  kafka.queue (kafka.conn t')
  = kafka.queue_after (map kafka.encode buf) (kafka.queue (kafka.conn t))
  /\ kafka.log (kafka.conn t') = kafka.log (kafka.conn t)
  /\ kafka.producer (kafka.conn t') = kafka.producer (kafka.conn t)
  /\ kafka.offered t' = kafka.offered t
  /\ kafka.now t' = kafka.now t
  /\ kafka.timer t' = kafka.timer t.
Proof.
  revert t. induction buf as [|msg rest IH]; intros t Hacc t'; subst t'.
  - cbn. destruct (chan_closed _); now repeat split.
  - cbn [map kafka.accepts_all] in Hacc.
    apply andb_true_iff in Hacc as [Hput Hrest].
    apply negb_true_iff in Hput.
    cbn [kafka.runQueue_loop map kafka.queue_after].
    assert (Hok : fst (kafka.putQueue msg (kafka.conn (kafka.received rest t)))
                  = None).
    { rewrite putQueue_run. cbn.
      destruct (fst (diskqueue.Put _ _)); [discriminate | reflexivity]. }
    rewrite (runQueue_msg_put_succeeds msg _ Hok), putQueue_run.
    match goal with
    | |- context [kafka.runQueue_loop rest ?t1] =>
        specialize (IH t1 Hrest); cbn zeta in IH;
        destruct IH as (Hq & Hl & Hp & Ho & Hn & Ht)
    end.
    rewrite Hq, Hl, Hp, Ho, Hn, Ht. now repeat split.
Qed.

(** X12. When the queue accepts the record of every buffered event,
    [runQueue] appends the records in the order of the intake and does
    nothing else: no line is logged, nothing is offered to the producer,
    the producer and the timer are as they were and no time passes. *)
Theorem runQueue_appends_in_order_and_spares_the_producer
    (start : Z) (c : Connector') :
  kafka.accepts_all (map kafka.encode (chan_buf (kafka.writeChan c)))
    (kafka.queue c) = true ->
  let t' := snd (kafka.runQueue start c) in
  kafka.queue (kafka.conn t')
  = kafka.queue_after (map kafka.encode (chan_buf (kafka.writeChan c)))
      (kafka.queue c)
  /\ kafka.log (kafka.conn t') = kafka.log c
  /\ kafka.producer (kafka.conn t') = kafka.producer c
  /\ kafka.offered t' = []
  /\ kafka.now t' = start.
Proof.
  intros Hacc t'. subst t'. unfold kafka.runQueue.
  match goal with
  | |- context [kafka.runQueue_loop ?b ?t] =>
      destruct (runQueue_loop_accepted b t Hacc)
        as (Hq & Hl & Hp & Ho & Hn & _)
  end.
  now repeat split.
Qed.

(** *** The forwarding task *)

Lemma read_keyLen_encode (msg : store.KeyEntry) :
  kafka.read_keyLen (kafka.encode msg) = Ret (uint32 (len (store.Key msg))).
Proof.
  unfold kafka.read_keyLen, kafka.encode.
  set (hdr := PutUint32 _). change 4 with (len hdr).
  rewrite slice_header. cbn [obind]. subst hdr.
  apply Uint32_PutUint32, uint32_range.
Qed.

Lemma runProducer_body_encode (msg : store.KeyEntry) (t : Task') (p : P)
    (d : Z) :
  len (store.Key msg) + 4 < 2 ^ 32 ->
  kafka.producer (kafka.conn t) = Some p ->
  sarama.Input_ready_in p (kafka.fallback_input (kafka.conn t) msg) = Some d ->
  kafka.runProducer_body (kafka.encode msg) t
  = (Ret tt,
     {| kafka.conn :=
          kafka.set_producer
            (Some (sarama.Input_take p
                     (kafka.fallback_input (kafka.conn t) msg)))
            (kafka.conn t);
        kafka.timer := kafka.timer t;
        kafka.now := kafka.now t + Z.max 0 d;
        kafka.offered :=
          kafka.offered t ++ [kafka.fallback_input (kafka.conn t) msg] |}).
Proof.
  intros Hshort Hp Hd. unfold kafka.runProducer_body.
  rewrite read_keyLen_encode, Hp.
  pose proof (decode_encode (config.Topic (kafka.cconf (kafka.conn t)))
                (store.Key msg) (store.Entry msg) Hshort) as Hdec.
  unfold kafka.decode in Hdec.
  replace {| store.Key := store.Key msg; store.Entry := store.Entry msg |}
    with msg in Hdec by now destruct msg.
  rewrite read_keyLen_encode in Hdec. cbn [obind] in Hdec.
  rewrite Hdec. unfold kafka.fallback_input in *. rewrite Hd. reflexivity.
Qed.

Lemma runProducer_encoded (msgs : list store.KeyEntry)
    (rest : list kafka.Recv) (t : Task') (p : P) :
  (forall (p : P) m, sarama.Input_ready_in p m <> None) ->
  Forall (fun msg => len (store.Key msg) + 4 < 2 ^ 32) msgs ->
  kafka.producer (kafka.conn t) = Some p ->
  exists t',
    kafka.runProducer (map kafka.RecvBody (map kafka.encode msgs) ++ rest) t
    = kafka.runProducer rest t'
    /\ kafka.offered t'
       = kafka.offered t ++ map (kafka.fallback_input (kafka.conn t)) msgs
    /\ kafka.producer (kafka.conn t')
       = Some (kafka.producer_after
                 (map (kafka.fallback_input (kafka.conn t)) msgs) p)
    /\ kafka.log (kafka.conn t') = kafka.log (kafka.conn t)
    /\ kafka.conf (kafka.conn t') = kafka.conf (kafka.conn t).
Proof.
  intros Hready Hshort. revert t p.
  induction Hshort as [|msg msgs Hmsg _ IH]; intros t p Hp.
  - exists t. cbn. rewrite app_nil_r. now repeat split.
  - destruct (sarama.Input_ready_in p
                (kafka.fallback_input (kafka.conn t) msg)) as [d|] eqn:Hd;
      [|now apply Hready in Hd].
    cbn [map app kafka.runProducer].
    rewrite (runProducer_body_encode msg t p d Hmsg Hp Hd).
    match goal with
    | |- context [kafka.runProducer _ ?t1] =>
        destruct (IH t1 _ eq_refl) as (t' & Hrun & Hoff & Hprod & Hlog & Hconf)
    end.
    exists t'. split; [exact Hrun|].
    assert (Hsame : forall m,
              kafka.fallback_input
                (kafka.set_producer
                   (Some (sarama.Input_take p
                            (kafka.fallback_input (kafka.conn t) msg)))
                   (kafka.conn t)) m
              = kafka.fallback_input (kafka.conn t) m) by reflexivity.
    rewrite Hoff, Hprod, Hlog, Hconf.
    cbn [kafka.offered kafka.conn kafka.producer_after].
    rewrite (map_ext _ _ Hsame), <- app_assoc. now repeat split.
Qed.

(** X13. When the producer always takes what it is offered,
    [runProducer] forwards the records that [putQueue] wrote for events
    with keys shorter than [2^32 - 4] bytes as one message per event, in
    the order of the records, each with the topic of the configuration
    and the key and entry of its event: the message the fallback of
    [runQueue] would have sent. It then returns when a stream closes. *)
Theorem runProducer_forwards_records_in_order
    (msgs : list store.KeyEntry) (t : Task') (p : P) :
  (forall (p : P) m, sarama.Input_ready_in p m <> None) ->
  Forall (fun msg => len (store.Key msg) + 4 < 2 ^ 32) msgs ->
  kafka.producer (kafka.conn t) = Some p ->
  let stream := map kafka.RecvBody (map kafka.encode msgs)
                ++ [kafka.RecvClosed] in
  let forwarded := map (kafka.fallback_input (kafka.conn t)) msgs in
  fst (kafka.runProducer stream t) = Ret tt
  /\ kafka.offered (snd (kafka.runProducer stream t))
     = kafka.offered t ++ forwarded
  /\ kafka.producer (kafka.conn (snd (kafka.runProducer stream t)))
     = Some (kafka.producer_after forwarded p)
  /\ kafka.log (kafka.conn (snd (kafka.runProducer stream t)))
     = kafka.log (kafka.conn t).
Proof.
  intros Hready Hshort Hp stream forwarded. subst stream forwarded.
  destruct (runProducer_encoded msgs [kafka.RecvClosed] t p Hready Hshort Hp)
    as (t' & Hrun & Hoff & Hprod & Hlog & _).
  rewrite Hrun. cbn. now repeat split.
Qed.



(** *** The timer of the fallback *)

Lemma rearm_ready_in (now wt : Z) (t0 : Timer) :
  no_stale_tick t0 ->
  Timer_ready_in now (kafka.rearm now wt t0) = Some (Z.max 0 wt).
Proof.
  intros Hok. unfold Timer_ready_in.
  rewrite (rearm_tick now wt t0 Hok), rearm_expiry.
  now replace (now + wt - now) with wt by lia.
Qed.

Lemma runQueue_loop_no_stale_tick (buf : list store.KeyEntry) (t : Task') :
  no_stale_tick (kafka.timer t) ->
  no_stale_tick (kafka.timer (snd (kafka.runQueue_loop buf t))).
Proof.
  revert t. induction buf as [|msg rest IH]; intros t Hok.
  - cbn. now destruct (chan_closed _).
  - cbn [kafka.runQueue_loop].
    pose proof (runQueue_msg_no_stale_tick msg (kafka.received rest t) Hok)
      as Hstep.
    destruct (kafka.runQueue_msg msg (kafka.received rest t)) as [[[]|m|] t1];
      cbn [snd] in *; [now apply IH | exact Hstep | exact Hstep].
Qed.

(** X15. The timer of [runQueue] never holds a stale tick, from the
    moment it is made and through every turn of the loop. Hence, when
    the queue refuses a record and publishing is enabled, a producer
    that is ready before the write timeout gets the message after that
    delay and no timeout is logged, and a producer that is not ready
    within the write timeout makes the task wait the whole timeout (no
    time at all for a timeout that is not positive), no less. *)
Theorem fallback_waits_for_the_whole_WriteTimeout
    (t : Task') (msg : store.KeyEntry) (e : Err) (p : P) :
  fst (kafka.putQueue msg (kafka.conn t)) = Some e ->
  config.EnableProducer (kafka.cconf (kafka.conn t)) = true ->
  kafka.producer (kafka.conn t) = Some p ->
  no_stale_tick (kafka.timer t) ->
  let wt := config.WriteTimeout (kafka.cconf (kafka.conn t)) in
  let input := kafka.fallback_input (kafka.conn t) msg in
  let failed := kafka.LogPutQueueFailed (Some e) in
  let timeout := kafka.LogPutKafkaTimeout (store.Key msg) in
  let t' := snd (kafka.runQueue_msg msg t) in
  no_stale_tick (kafka.timer t')
  /\ (forall start c,
        no_stale_tick (kafka.timer (snd (kafka.runQueue start c))))
  /\ (forall d, sarama.Input_ready_in p input = Some d ->
      Z.max 0 d < Z.max 0 wt ->
      kafka.now t' = kafka.now t + Z.max 0 d
      /\ kafka.producer (kafka.conn t') = Some (sarama.Input_take p input)
      /\ kafka.log (kafka.conn t') = kafka.log (kafka.conn t) ++ [failed])
  /\ (sarama.Input_ready_in p input = None
      \/ (exists d, sarama.Input_ready_in p input = Some d
                    /\ Z.max 0 wt < Z.max 0 d) ->
      kafka.now t' = kafka.now t + Z.max 0 wt
      /\ kafka.producer (kafka.conn t') = Some p
      /\ kafka.log (kafka.conn t')
         = kafka.log (kafka.conn t) ++ [failed; timeout]).
Proof.
  intros Hfail Hen Hp Hok wt input failed timeout t'.
  split; [now apply runQueue_msg_no_stale_tick|].
  split.
  { intros start c. unfold kafka.runQueue.
    apply runQueue_loop_no_stale_tick, NewTimer_no_stale_tick. }
  subst t'. rewrite (runQueue_msg_put_fails _ _ _ Hfail). cbn zeta.
  rewrite putQueue_run, Hen, Hp. cbn [negb].
  fold wt input. unfold kafka.select_input_or_timer.
  rewrite (rearm_ready_in (kafka.now t) wt (kafka.timer t) Hok).
  split.
  - intros d Hd Hsoon. rewrite Hd.
    destruct (Z.ltb_spec (Z.max 0 d) (Z.max 0 wt)); [|lia].
    cbn. now repeat split.
  - intros [Hnever | (d & Hd & Hlate)].
    + rewrite Hnever. cbn. rewrite <- app_assoc. now repeat split.
    + rewrite Hd.
      destruct (Z.ltb_spec (Z.max 0 d) (Z.max 0 wt)); [lia|].
      destruct (Z.ltb_spec (Z.max 0 wt) (Z.max 0 d)); [|lia].
      cbn. rewrite <- app_assoc. now repeat split.
Qed.

(** *** Driver.Open *)

Lemma Send_all_fresh (n : nat) (c : Connector') (msgs : list store.KeyEntry) :
  kafka.writeChan c = make_chan n ->
  (length msgs <= n)%nat ->
  fst (kafka.Send_all msgs c) = Ret tt
  /\ chan_buf (kafka.writeChan (snd (kafka.Send_all msgs c))) = msgs.
Proof.
  intros Hch Hlen.
  rewrite Send_all_run by now rewrite Hch.
  cbn zeta. rewrite Hch. unfold make_chan.
  cbn [chan_cap chan_buf length fst snd kafka.set_writeChan kafka.writeChan
       app].
  rewrite Nat.sub_0_r.
  destruct (Nat.leb_spec (length msgs) n); [|lia].
  split; [reflexivity|]. now apply firstn_all2.
Qed.

(** X16. [Driver.Open] returns a connector or an error, never both and
    never neither. A failing [os.MkdirAll] ends it before the producer
    is asked for; with publishing disabled the producer is not asked
    for at all. The connector it returns has an empty log and write
    buffer, the queue it was given, and an open, empty intake of
    [MaxMessage] slots, so that it takes up to [MaxMessage] events
    while nothing consumes them. *)
Theorem Open_returns_a_fresh_connector_or_an_error
    (MkdirAll : error) (New : Q)
    (NewAsyncProducer : sarama.Config -> option P * error)
    (conf : config.Config) :
  let opened := kafka.Open MkdirAll New NewAsyncProducer conf in
  (fst (fst opened) = None <-> snd (fst opened) <> None)
  /\ (MkdirAll <> None ->
      opened = (None, MkdirAll, [kafka.LogMkdirFailed MkdirAll]))
  /\ (MkdirAll = None ->
      config.EnableProducer (config.Connector conf) = false ->
      forall other,
        opened = kafka.Open MkdirAll New other conf
        /\ exists c, fst (fst opened) = Some c /\ kafka.producer c = None)
  /\ (forall c, fst (fst opened) = Some c ->
      kafka.log c = [] /\ kafka.writeBuf c = [] /\ kafka.queue c = New
      /\ kafka.conf c = conf
      /\ kafka.writeChan c = make_chan kafka.MaxMessage
      /\ forall msgs, (length msgs <= kafka.MaxMessage)%nat ->
         fst (kafka.Send_all msgs c) = Ret tt
         /\ chan_buf (kafka.writeChan (snd (kafka.Send_all msgs c))) = msgs).
Proof.
  intros opened. subst opened. unfold kafka.Open.
  destruct MkdirAll as [me|]; cbn [store.is_set].
  { repeat split; try discriminate; intros; try congruence. }
  destruct (config.EnableProducer (config.Connector conf)) eqn:Hen.
  - destruct (NewAsyncProducer _) as [p perr].
    destruct perr as [pe|]; cbn [store.is_set fst snd].
    + repeat split; try discriminate; intros; congruence.
    + split; [split; [discriminate | congruence]|].
      split; [congruence|]. split; [discriminate|].
      intros c Hc. injection Hc as <-.
      do 5 (split; [reflexivity|]).
      intros msgs Hlen. now apply (Send_all_fresh kafka.MaxMessage).
  - cbn [fst snd]. split; [split; [discriminate | congruence]|].
    split; [congruence|]. split.
    + intros _ _ other. split; [reflexivity|]. eexists. now split.
    + intros c Hc. injection Hc as <-.
      do 5 (split; [reflexivity|]).
      intros msgs Hlen. now apply (Send_all_fresh kafka.MaxMessage).
Qed.

End ConnectorPipeline.

(** ** More on the record format *)

Section RecordFormatInverse.

Local Open Scope Z_scope.

Lemma byte_of_Z_of_byte (z : Z) (b : byte) :
  Z.land z 255 = Z_of_byte b -> byte_of_Z z = b.
Proof.
  intros Hz. unfold byte_of_Z. rewrite Hz. unfold Z_of_byte.
  now rewrite N2Z.id, Byte.of_to_N.
Qed.

Lemma PutUint32_Uint32 (b0 b1 b2 b3 : byte) (rest : bytes) (v : Z) :
  Uint32 (b0 :: b1 :: b2 :: b3 :: rest) = Ret v ->
  PutUint32 v = [b0; b1; b2; b3].
Proof.
  intros Hv. injection Hv as Hv. subst v. unfold PutUint32.
  pose proof (Z_of_byte_land b0) as E0. pose proof (Z_of_byte_land b1) as E1.
  pose proof (Z_of_byte_land b2) as E2. pose proof (Z_of_byte_land b3) as E3.
  set (x0 := Z_of_byte b0) in *. set (x1 := Z_of_byte b1) in *.
  set (x2 := Z_of_byte b2) in *. set (x3 := Z_of_byte b3) in *.
  f_equal; [|f_equal; [|f_equal; [|f_equal]]];
    apply byte_of_Z_of_byte; change 255 with (Z.ones 8);
    [ fold x0; rewrite E0 at 2 | fold x1; rewrite E1 at 2
    | fold x2; rewrite E2 at 2 | fold x3; rewrite E3 at 2 ];
    rewrite E0, E1, E2, E3; Z.bitblast.
Qed.

Lemma PutUint32_declared (body : bytes) :
  4 <= len body -> PutUint32 (kafka.declared_keyLen body) = firstn 4 body.
Proof.
  intros Hlen. unfold kafka.declared_keyLen.
  destruct body as [|b0 [|b1 [|b2 [|b3 rest]]]];
    try (unfold len in Hlen; cbn in Hlen; lia).
  exact (PutUint32_Uint32 b0 b1 b2 b3 rest _ eq_refl).
Qed.

(** X17. For every record whose declared key length is below
    [2^32 - 4], decoding succeeds exactly when the record is neither
    truncated nor declares more key bytes than follow the header, and the
    decoded key and value encode back to the very same record: the
    format has one record per event and one event per record. *)
Theorem decode_succeeds_on_well_formed_records_and_inverts_encode
    (topic : string) (body : bytes) :
  kafka.declared_keyLen body + 4 < 2 ^ 32 ->
  (kafka.corrupt body = false
   <-> exists m, kafka.decode topic body = Ret m)
  /\ (forall m, kafka.decode topic body = Ret m ->
      sarama.Topic m = topic
      /\ kafka.encode {| store.Key := sarama.Key m;
                         store.Entry := sarama.Value m |} = body).
Proof.
  intros Hsmall.
  assert (Hdec : kafka.corrupt body = false ->
                 kafka.decode topic body
                 = Ret {| sarama.Topic := topic;
                          sarama.Key :=
                            firstn (Z.to_nat (kafka.declared_keyLen body))
                              (skipn 4 body);
                          sarama.Value :=
                            skipn (Z.to_nat (kafka.declared_keyLen body + 4))
                              body |}).
  { intros Hok. unfold kafka.decode.
    assert (H4 : 4 <= len body).
    { unfold kafka.corrupt in Hok. apply orb_false_iff in Hok as [H4 _].
      now apply Z.ltb_ge in H4. }
    rewrite read_keyLen_declared by assumption. cbn [obind].
    now apply message_well_formed. }
  assert (Hiff : forall m, kafka.decode topic body = Ret m ->
                           kafka.corrupt body = false).
  { intros m Hm. destruct (kafka.corrupt body) eqn:Hc; [|reflexivity].
    rewrite (decode_corrupt topic body Hc) in Hm. discriminate. }
  split.
  - split; [intros Hok; eexists; now apply Hdec|].
    intros [m Hm]. now apply (Hiff m).
  - intros m Hm. pose proof (Hiff m Hm) as Hok.
    rewrite (Hdec Hok) in Hm. injection Hm as <-. split; [reflexivity|].
    cbn [sarama.Key sarama.Value].
    pose proof (declared_keyLen_range body) as Hk.
    unfold kafka.corrupt in Hok. apply orb_false_iff in Hok as [H4 Hfit].
    apply Z.ltb_ge in H4, Hfit.
    set (k := kafka.declared_keyLen body) in *.
    unfold kafka.encode. cbn [store.Key store.Entry].
    assert (Hlen : len (firstn (Z.to_nat k) (skipn 4 body)) = k).
    { unfold len in *. rewrite length_firstn, length_skipn. lia. }
    rewrite Hlen, uint32_small by lia.
    subst k. rewrite PutUint32_declared by assumption.
    replace (Z.to_nat (kafka.declared_keyLen body + 4))
      with (Z.to_nat (kafka.declared_keyLen body) + 4)%nat by lia.
    rewrite <- skipn_skipn. rewrite firstn_skipn. apply firstn_skipn.
Qed.

(** X18. Two events with keys shorter than [2^32 - 4] bytes that
    [putQueue] writes as the same record are the same event. *)
Theorem encode_is_injective (m1 m2 : store.KeyEntry) :
  len (store.Key m1) + 4 < 2 ^ 32 ->
  len (store.Key m2) + 4 < 2 ^ 32 ->
  kafka.encode m1 = kafka.encode m2 ->
  m1 = m2.
Proof.
  intros H1 H2 Heq. destruct m1 as [k1 e1], m2 as [k2 e2]. cbn in H1, H2.
  pose proof (decode_encode EmptyString k1 e1 H1) as D1.
  pose proof (decode_encode EmptyString k2 e2 H2) as D2.
  rewrite Heq, D2 in D1. now injection D1 as -> ->.
Qed.

End RecordFormatInverse.

(** ** The facade after Close *)

Section UseAfterClose.

Context {D Q P : Type} `{!store.DB D}.
Context `{!diskqueue.Interface Q} `{!sarama.AsyncProducer P}.
Variable json_Unmarshal : bytes -> option store.Log -> error * option store.Log.

(** X19. [Close] leaves both slots of the store set. Over the kafka
    connector a second [Close] therefore panics on the intake that the
    first one closed, before it reaches the backend, and a [CheckAndPut]
    that the backend accepts panics in [Send] after the backend has
    taken the write. *)
Theorem Close_is_final
    (s : store.Store D (kafka.Connector Q P)) (tr : list store.Event)
    (c : kafka.Connector Q P) :
  store.connector s = Some c ->
  chan_closed (kafka.writeChan c) = false ->
  (config.EnableProducer (kafka.cconf c) = true -> kafka.producer c <> None) ->
  let w := {| store.this := s; store.trace := tr |} in
  let w1 := snd (store.Close w) in
  fst (store.Close w)
  = Ret (match store.db s with
         | Some d => fst (store.db_Close d)
         | None => None
         end)
  /\ store.connector (store.this w1) = Some (snd (kafka.Close c))
  /\ store.db (store.this w1)
     = match store.db s with
       | Some d => Some (snd (store.db_Close d))
       | None => None
       end
  /\ fst (store.Close w1) = Panic "close of closed channel"
  /\ List.filter store.is_db_event (store.trace (snd (store.Close w1)))
     = List.filter store.is_db_event (store.trace w1)
  /\ (forall d1 key entry check l,
        store.db (store.this w1) = Some d1 ->
        entry <> [] ->
        json_Unmarshal entry
          (Some {| store.Old := EmptyString; store.New := EmptyString |})
        = (None, Some l) ->
        fst (store.db_CheckAndPut d1 key (S2B (store.Old l))
               (S2B (store.New l)) check) = None ->
        fst (store.CheckAndPut json_Unmarshal key entry check w1)
        = Panic "send on closed channel"
        /\ store.db (store.this
                       (snd (store.CheckAndPut json_Unmarshal key entry
                               check w1)))
           = Some (snd (store.db_CheckAndPut d1 key (S2B (store.Old l))
                          (S2B (store.New l)) check))).
Proof.
  intros Hconn Hopen Hready w w1.
  destruct (Close_run c Hopen Hready) as (Hret & Hclosed & _).
  pose proof (Close_connector_returns s tr c Hconn Hret) as Hclose.
  change (store.conn_Close c) with (kafka.Close c) in Hclose.
  subst w1 w. rewrite Hclose.
  assert (Hsecond : forall s1 tr1,
            store.connector s1 = Some (snd (kafka.Close c)) ->
            store.Close {| store.this := s1; store.trace := tr1 |}
            = (Panic "close of closed channel",
               {| store.this := s1;
                  store.trace := tr1 ++ store.closing_connector s1 |})).
  { intros [d1 c1 cf1] tr1 Hc1. cbn in Hc1. subst c1. run_store.
    change (store.conn_Close (snd (kafka.Close c)))
      with (kafka.Close (snd (kafka.Close c))).
    rewrite (Close_twice_panics _ Hclosed). cbn.
    unfold store.closing_connector. cbn. now rewrite <- app_assoc. }
  assert (Hput : forall s1 tr1 d1 key entry check l,
            store.connector s1 = Some (snd (kafka.Close c)) ->
            store.db s1 = Some d1 ->
            entry <> [] ->
            json_Unmarshal entry
              (Some {| store.Old := EmptyString; store.New := EmptyString |})
            = (None, Some l) ->
            fst (store.db_CheckAndPut d1 key (S2B (store.Old l))
                   (S2B (store.New l)) check) = None ->
            let run := store.CheckAndPut json_Unmarshal key entry check
                         {| store.this := s1; store.trace := tr1 |} in
            fst run = Panic "send on closed channel"
            /\ store.db (store.this (snd run))
               = Some (snd (store.db_CheckAndPut d1 key (S2B (store.Old l))
                              (S2B (store.New l)) check))).
  { intros s1 tr1 d1 key entry check l Hc1 Hd1 Hne Hjson Hcas run.
    subst run.
    rewrite (CheckAndPut_run json_Unmarshal s1 tr1 d1 key entry check l
               Hd1 Hne Hjson).
    cbn zeta. rewrite Hcas, Hc1.
    change (store.conn_Send (snd (kafka.Close c)))
      with (kafka.Send (snd (kafka.Close c))).
    rewrite Send_run, Hclosed. now split. }
  destruct (store.db s) as [d|]; cbn [fst snd store.this store.db
                                      store.connector store.trace].
  - repeat split.
    + now rewrite Hsecond.
    + rewrite Hsecond by reflexivity. cbn [snd store.trace].
      rewrite List.filter_app. cbn. now rewrite app_nil_r.
    + eapply Hput; try eassumption; reflexivity.
    + eapply Hput; try eassumption; reflexivity.
  - repeat split.
    + now rewrite Hsecond.
    + rewrite Hsecond by reflexivity. cbn [snd store.trace].
      rewrite List.filter_app. cbn. now rewrite app_nil_r.
    + discriminate.
    + discriminate.
Qed.

End UseAfterClose.

(** ** The further properties on the sample implementations *)

Section MoreScenarios.

Import samples.

Local Open Scope Z_scope.

(** Both drivers are registered: [NewStore] returns an unopened store. *)
Lemma NewStore_needs_both_drivers_witness :
  @store.NewStore MemDriver unit MemKV KConnector registry0 conf0
  = (Some {| store.db := None; store.connector := None;
             store.conf := conf0 |}, None).
Proof.
  destruct (@NewStore_needs_both_drivers MemKV KConnector MemDriver unit
              driver_name kafka.Driver_Name registry0 conf0) as (Hboth & _).
  apply Hboth; eexists; reflexivity.
Defined.

(** The backend driver fails and the kafka driver opens: the connector
    slot is set, the backend slot is not, and [Health] reports it. *)
Lemma Open_fills_slots_in_any_order_witness :
  let s := {| store.db := None; store.connector := None;
              store.conf := conf0 |} in
  let opened := store.Open MemDriver_Open Driver_Open false
                  registry_failing s in
  fst opened = Ret [store.LogOpenDBFailed "memkv" (Some (Errorf "no route"))]
  /\ store.db (snd opened) = None
  /\ store.connector (snd opened) = Some connector0
  /\ fst (store.Health {| store.this := snd opened; store.trace := [] |})
     = Ret (Some ErrDatabaseNotExists).
Proof.
  intros s opened. subst opened.
  destruct (Open_fills_slots_in_any_order MemDriver_Open Driver_Open
              registry_failing s failing_driver tt eq_refl eq_refl)
    as (_ & Horder & Hdown).
  rewrite Horder. split; [reflexivity|]. split; [reflexivity|].
  split; [reflexivity|].
  now destruct (Hdown eq_refl eq_refl [] u1 store.NoOption) as (Hhealth & _).
Defined.

Lemma NewStore_then_Open_returns_witness :
  exists logged s',
    store.Open MemDriver_Open Driver_Open true registry0
      {| store.db := None; store.connector := None; store.conf := conf0 |}
    = (Ret logged, s')
    /\ store.conf s' = conf0.
Proof.
  apply (NewStore_then_Open_returns MemDriver_Open Driver_Open
           registry0 conf0).
  reflexivity.
Defined.

(** An empty entry is refused without a call of the backend. *)
Lemma CheckAndPut_bad_entry_stops_before_backend_witness :
  store.CheckAndPut Unmarshal u1 [] check_equal (facade (Some connector0))
  = (Ret (Some ErrNotExists),
     {| store.this := store.this (facade (Some connector0));
        store.trace := [store.EvLog (store.LogCasNeedBody u1)] |}).
Proof.
  destruct (CheckAndPut_bad_entry_stops_before_backend Unmarshal
              (store.this (facade (Some connector0))) [] memkv0 u1 []
              check_equal eq_refl) as (Hempty & _).
  now apply Hempty.
Defined.

(** The entry null: the sample decoder stores nil and reports nothing. *)
Lemma CheckAndPut_nil_Log_panics_witness :
  fst (store.CheckAndPut Unmarshal u1 (S2B "null") check_equal
         (facade (Some connector0)))
  = Panic nil_dereference.
Proof.
  assert (Hne : S2B "null" <> []) by discriminate.
  now rewrite (CheckAndPut_nil_Log_panics Unmarshal
                 (store.this (facade (Some connector0))) [] memkv0 u1
                 (S2B "null") check_equal eq_refl Hne eq_refl).
Defined.

Lemma List_returns_rows_or_error_witness :
  fst (store.List (S2B "a") (S2B "z") 10 store.NoOption facade_broken)
  = Ret ([], Some (Errorf "region unavailable")).
Proof.
  now destruct (List_returns_rows_or_error (store.this facade_broken) []
                  {| failure := Errorf "region unavailable" |}
                  (S2B "a") (S2B "z") 10 store.NoOption eq_refl)
    as (Hres & _).
Defined.

Lemma BatchDelete_returns_backend_progress_witness :
  fst (store.BatchDelete (S2B "a") (S2B "z") 10 facade_broken)
  = Ret ([], 0, Some (Errorf "region unavailable")).
Proof.
  now destruct (BatchDelete_returns_backend_progress
                  (store.this facade_broken) []
                  {| failure := Errorf "region unavailable" |}
                  (S2B "a") (S2B "z") 10 eq_refl)
    as (Hres & _).
Defined.

Lemma UnsafeDelete_swallows_backend_error_witness :
  fst (store.UnsafeDelete (S2B "a") (S2B "z") facade_broken) = Ret tt.
Proof.
  now rewrite (UnsafeDelete_swallows_backend_error
                 (store.this facade_broken) []
                 {| failure := Errorf "region unavailable" |}
                 (S2B "a") (S2B "z") eq_refl).
Defined.

(** Two events sent to the empty intake are queued in that order. *)
Lemma Send_all_fills_free_slots_in_order_witness :
  kafka.Send_all [k1v1; k2v2] connector0 = (Ret tt, connector_two).
Proof.
  destruct (Send_all_fills_free_slots_in_order [k1v1; k2v2] connector0
              eq_refl) as (Hfit & _).
  rewrite Hfit; [reflexivity|]. cbn. unfold kafka.MaxMessage. lia.
Defined.


(** The queue takes the records of both events, in order. *)
Lemma runQueue_appends_in_order_and_spares_the_producer_witness :
  records (kafka.queue (kafka.conn (snd (kafka.runQueue 0 connector_two))))
  = [kafka.encode k1v1; kafka.encode k2v2]
  /\ kafka.offered (snd (kafka.runQueue 0 connector_two)) = [].
Proof.
  assert (Hacc :
    kafka.accepts_all
      (map kafka.encode (chan_buf (kafka.writeChan connector_two)))
      (kafka.queue connector_two) = true) by (vm_compute; reflexivity).
  destruct (runQueue_appends_in_order_and_spares_the_producer 0
              connector_two Hacc) as (Hq & _ & _ & Ho & _).
  rewrite Hq. split; [vm_compute; reflexivity | exact Ho].
Defined.

(** The two records come out as the two messages, in order. *)
Lemma runProducer_forwards_records_in_order_witness :
  kafka.offered
    (snd (kafka.runProducer
            [kafka.RecvBody (kafka.encode k1v1);
             kafka.RecvBody (kafka.encode k2v2); kafka.RecvClosed]
            eager_task))
  = [{| sarama.Topic := "tikv"; sarama.Key := S2B "k1";
        sarama.Value := S2B "v1" |};
     {| sarama.Topic := "tikv"; sarama.Key := S2B "k2";
        sarama.Value := S2B "v2" |}].
Proof.
  assert (Hready : forall (p : Eager) m, sarama.Input_ready_in p m <> None)
    by discriminate.
  assert (Hshort : Forall (fun msg => len (store.Key msg) + 4 < 2 ^ 32)
                     [k1v1; k2v2]) by (repeat constructor).
  now destruct (runProducer_forwards_records_in_order [k1v1; k2v2]
                  eager_task {| got := [] |} Hready Hshort eq_refl)
    as (_ & Hoff & _).
Defined.

(** The stalled task waits the 100 ms of its write timeout. *)
Lemma fallback_waits_for_the_whole_WriteTimeout_witness :
  kafka.now
    (snd (kafka.runQueue_msg {| store.Key := u1; store.Entry := entry_a_b |}
            task_stalled))
  = 0 + Z.max 0 (100 * Millisecond).
Proof.
  assert (Hput :
    fst (kafka.putQueue {| store.Key := u1; store.Entry := entry_a_b |}
           (kafka.conn task_stalled)) = Some (Errorf "exiting"))
    by (vm_compute; reflexivity).
  assert (Hok : no_stale_tick (kafka.timer task_stalled)) by discriminate.
  destruct (fallback_waits_for_the_whole_WriteTimeout task_stalled
              {| store.Key := u1; store.Entry := entry_a_b |}
              (Errorf "exiting") _ Hput eq_refl eq_refl Hok)
    as (_ & _ & _ & Hlate).
  now destruct (Hlate (or_introl eq_refl)) as (Hnow & _).
Defined.

(** The kafka driver over the in-memory queue: a fresh connector. *)
Lemma Open_returns_a_fresh_connector_or_an_error_witness :
  fst (fst (kafka.Open None queue0 (fun _ => (Some producer0, None)) conf0))
  = Some connector0
  /\ fst (kafka.Send_all [k1v1; k2v2] connector0) = Ret tt.
Proof.
  destruct (Open_returns_a_fresh_connector_or_an_error None queue0
              (fun _ => (Some producer0, None)) conf0)
    as (_ & _ & _ & Hfresh).
  split; [reflexivity|].
  destruct (Hfresh connector0 eq_refl) as (_ & _ & _ & _ & _ & Hsend).
  apply Hsend. cbn. unfold kafka.MaxMessage. lia.
Defined.

(** The record of k1 and v1 is the encoding of what it decodes to. *)
Lemma decode_succeeds_on_well_formed_records_and_inverts_encode_witness :
  kafka.encode {| store.Key := S2B "k1"; store.Entry := S2B "v1" |}
  = kafka.encode k1v1.
Proof.
  destruct (decode_succeeds_on_well_formed_records_and_inverts_encode
              "tikv" (kafka.encode k1v1) eq_refl) as (_ & Hinv).
  now destruct (Hinv {| sarama.Topic := "tikv"; sarama.Key := S2B "k1";
                        sarama.Value := S2B "v1" |} eq_refl)
    as (_ & Henc).
Defined.

Lemma encode_is_injective_witness :
  {| store.Key := S2B "k1"; store.Entry := S2B "v1" |} = k1v1.
Proof.
  apply encode_is_injective; reflexivity.
Defined.

(** After [Close], a second [Close] panics and the backend is not closed
    again. *)
Lemma Close_is_final_witness :
  fst (store.Close (snd (store.Close facade_closing)))
  = Panic "close of closed channel".
Proof.
  assert (Hready : config.EnableProducer (kafka.cconf connector0) = true ->
                   kafka.producer connector0 <> None) by discriminate.
  destruct (Close_is_final Unmarshal (store.this facade_closing) []
              connector0 eq_refl eq_refl Hready)
    as (_ & _ & _ & Hsecond & _).
  exact Hsecond.
Defined.

End MoreScenarios.
